(** * d2go configuration trees: a shallow embedding of [d2go/config/config.py]

    The development embeds the functions of [d2go/config/config.py] and
    states the properties of the configuration tree, of the diff table,
    of the patched YAML loaders and of the world-size auto scaler.

    Data.  A Python value stored in a config is a [value]; a config
    node is a [dict] subclass, embedded as its class, its frozen flag
    ([__immutable__]) and its items in insertion order.  Two classes of
    nodes occur: [CfgNode] of [d2go.config], defined in the embedded
    file, and its parent class [CfgNode] of [detectron2.config], which
    the file imports as [_CfgNode].  A well-formed node ([wf_node]) has
    no key twice, as every Python [dict].  A [float] is an IEEE 754
    value together with the identity of the float object, which Python
    consults when it compares the items of two containers.

    Effects.  Python exceptions are the [Raise] results of [res]; code
    that mutates objects in place runs in the state monad [M], whose
    state survives an exception. *)

From Stdlib Require Import ZArith String Ascii List SpecFloat.
From stdpp Require Import base list strings sorting pretty.

Local Open Scope string_scope.
Local Open Scope list_scope.

(** ** Values and nodes *)

(** The class of a config node: [CfgNode] of [d2go.config] ([D2go]) or
    its parent class [_CfgNode] ([Detectron2]).  Every node is an
    instance of [_CfgNode]; only a [D2go] node is an instance of
    [CfgNode]. *)
Inductive node_class : Type :=
| D2go
| Detectron2.

(** The values a config holds.  In [VFloat id x] the number is [x] and
    [id] names the float object: two occurrences with the same [id] are
    one object, as the float that a tree and its deep copy share. *)
#[local] Unset Elimination Schemes.
Inductive value : Type :=
| VNone
| VBool (b : bool)
| VInt (n : Z)
| VFloat (id : positive) (x : spec_float)
| VStr (s : string)
| VList (l : list value)
| VCfg (c : CfgNode)
with CfgNode : Type :=
| Node (cls : node_class) (immutable : bool) (items : list (string * value)).
#[local] Set Elimination Schemes.

Definition class_of (c : CfgNode) : node_class :=
  match c with Node cls _ _ => cls end.

Definition immutable (c : CfgNode) : bool :=
  match c with Node _ imm _ => imm end.

Definition items (c : CfgNode) : list (string * value) :=
  match c with Node _ _ its => its end.

(** [obj.keys()] *)
Definition keys (c : CfgNode) : list string := (items c).*1.

(** [isinstance(v, CfgNode)] for the class [CfgNode] of the embedded
    file: the node, when the test holds. *)
Definition as_CfgNode (v : value) : option CfgNode :=
  match v with
  | VCfg c => match class_of c with D2go => Some c | Detectron2 => None end
  | _ => None
  end.

Definition is_CfgNode (v : value) : bool :=
  match as_CfgNode v with Some _ => true | None => false end.

(** Python exceptions raised by the embedded code. *)
Inductive exn : Type :=
| AssertionError
| AttributeError
| KeyError
| TypeError.

Inductive res (A : Type) : Type :=
| Ok (a : A)
| Raise (e : exn).
Arguments Ok {A} a.
Arguments Raise {A} e.

(** ** Dictionaries as association lists *)

Section Dict.
Context {V : Type}.

(** [d.get(k)], as an option *)
Fixpoint dict_get (d : list (string * V)) (k : string) : option V :=
  match d with
  | [] => None
  | (k', v) :: d' => if String.eqb k' k then Some v else dict_get d' k
  end.

(** [d[k] = v]: an existing key keeps its position, a new key goes last. *)
Fixpoint dict_set (d : list (string * V)) (k : string) (v : V)
  : list (string * V) :=
  match d with
  | [] => [(k, v)]
  | (k', v') :: d' =>
      if String.eqb k' k then (k', v) :: d' else (k', v') :: dict_set d' k v
  end.
End Dict.

(** ** Python equality [==] on values *)

(** [x == y] on two floats: equality of the numbers they stand for.
    The two zeros are equal, NaN is equal to nothing. *)
Definition float_eqb (x y : spec_float) : bool :=
  match x, y with
  | S754_zero _, S754_zero _ => true
  | S754_infinity s1, S754_infinity s2 => Bool.eqb s1 s2
  | S754_finite s1 m1 e1, S754_finite s2 m2 e2 =>
      Bool.eqb s1 s2
      && Z.eqb (Z.pos m1 * 2 ^ (e1 - Z.min e1 e2))
               (Z.pos m2 * 2 ^ (e2 - Z.min e1 e2))
  | _, _ => false
  end.

(** [x == n] for a float and an [int]: Python compares the exact
    numbers. *)
Definition float_eq_int (x : spec_float) (n : Z) : bool :=
  match x with
  | S754_zero _ => Z.eqb n 0
  | S754_finite s m e =>
      let z := if s then Z.neg m else Z.pos m in
      if (0 <=? e)%Z then Z.eqb (z * 2 ^ e) n else Z.eqb z (n * 2 ^ (- e))
  | _ => false
  end.

(** [x is y] where it decides a comparison.  [list] and [dict] compare
    two items with [x is y or x == y]; the identity test changes the
    result only where [==] is not reflexive, that is for a float that is
    NaN, so the identity of the other objects is not recorded. *)
Definition is_same_float (a b : value) : bool :=
  match a, b with
  | VFloat i _, VFloat j _ => Pos.eqb i j
  | _, _ => false
  end.

(** [a == b].  [bool] is a subclass of [int] ([True == 1]) and numbers
    compare across [int] and [float]; lists compare item by item;
    config nodes compare as dictionaries, whatever the insertion order,
    the class and the frozen flag. *)
Fixpoint py_eq (a b : value) {struct a} : bool :=
  match a with
  | VNone => match b with VNone => true | _ => false end
  | VBool x =>
      match b with
      | VBool y => Bool.eqb x y
      | VInt n => Z.eqb (Z.b2z x) n
      | VFloat _ g => float_eq_int g (Z.b2z x)
      | _ => false
      end
  | VInt m =>
      match b with
      | VBool y => Z.eqb m (Z.b2z y)
      | VInt n => Z.eqb m n
      | VFloat _ g => float_eq_int g m
      | _ => false
      end
  | VFloat _ f =>
      match b with
      | VBool y => float_eq_int f (Z.b2z y)
      | VInt n => float_eq_int f n
      | VFloat _ g => float_eqb f g
      | _ => false
      end
  | VStr s => match b with VStr t => String.eqb s t | _ => false end
  | VList la =>
      match b with
      | VList lb =>
          (fix go (la lb : list value) {struct la} : bool :=
             match la, lb with
             | [], [] => true
             | x :: la', y :: lb' =>
                 (is_same_float x y || py_eq x y) && go la' lb'
             | _, _ => false
             end) la lb
      | _ => false
      end
  | VCfg (Node _ _ ia) =>
      match b with
      | VCfg (Node _ _ ib) =>
          Nat.eqb (length ia) (length ib)
          && (fix go (ia : list (string * value)) {struct ia} : bool :=
                match ia with
                | [] => true
                | (k, x) :: ia' =>
                    match dict_get ib k with
                    | Some y => (is_same_float x y || py_eq x y) && go ia'
                    | None => false
                    end
                end) ia
      | _ => false
      end
  end.

(** A float that is NaN: the one value that is not equal to itself. *)
Definition is_nan (v : value) : bool :=
  match v with
  | VFloat _ S754_nan => true
  | _ => false
  end.

(** ** Well-formed values

    A Python [dict] holds every key once.  [wf_value] says so of every
    node inside a value, also inside lists. *)

Fixpoint wf_value (v : value) : bool :=
  match v with
  | VList l => forallb wf_value l
  | VCfg (Node _ _ its) =>
      bool_decide (NoDup its.*1) && forallb (fun kv => wf_value kv.2) its
  | _ => true
  end.

Definition wf_node (c : CfgNode) : bool := wf_value (VCfg c).

(** ** Strings *)

(** [s.split(sep)] for a one-character separator: never empty. *)
Fixpoint split_on (sep : ascii) (s : string) : list string :=
  match s with
  | EmptyString => [EmptyString]
  | String c s' =>
      if Ascii.eqb c sep then EmptyString :: split_on sep s'
      else match split_on sep s' with
           | [] => [String c EmptyString]
           | w :: ws => String c w :: ws
           end
  end.

Definition dot : ascii := "."%char.

(** ** [CfgNode.get_field_or_none] *)

(** The loop over [path_to_last]: [None] stands for the early
    [return None].  [isinstance(cfg_node, _CfgNode)] holds of the nodes
    of both classes. *)
Fixpoint walk_to_last (cfg_node : value) (path_to_last : list string)
  : option value :=
  match path_to_last with
  | [] => Some cfg_node
  | attribute :: rest =>
      match cfg_node with
      | VCfg c =>
          match dict_get (items c) attribute with
          | Some v => walk_to_last v rest
          | None => None
          end
      | _ => None
      end
  end.

Definition get_field_or_none (self : CfgNode) (field_path : string) : value :=
  let attributes := split_on dot field_path in
  let path_to_last := removelast attributes in
  let last_attribute := List.last attributes EmptyString in
  match walk_to_last (VCfg self) path_to_last with
  | None => VNone
  | Some cfg_node =>
      match cfg_node with
      | VCfg c =>
          match dict_get (items c) last_attribute with
          | Some v => v
          | None => VNone
          end
      | _ => VNone
      end
  end.

(** ** The result monad of fallible, pure code *)

#[global] Instance res_ret : MRet res := fun A a => Ok a.

#[global] Instance res_bind : MBind res := fun A B k m =>
  match m with
  | Ok a => k a
  | Raise e => Raise e
  end.

(** [for x in xs: ret = body(ret, x)], for a body that may raise. *)
Fixpoint fold_res {A B : Type} (body : A -> B -> res A) (ret : A)
    (xs : list B) : res A :=
  match xs with
  | [] => Ok ret
  | x :: xs' =>
      match body ret x with
      | Ok ret' => fold_res body ret' xs'
      | Raise e => Raise e
      end
  end.

(** ** [get_cfg_diff_table] *)

(** The nesting depth of a node bounds the recursion of the traversals
    that follow [sorted(obj.keys())]. *)
Fixpoint height (c : CfgNode) : nat :=
  match c with
  | Node _ _ its =>
      S ((fix go (l : list (string * value)) : nat :=
            match l with
            | [] => 0
            | (_, v) :: l' =>
                Nat.max (match v with VCfg c' => height c' | _ => 0 end)
                        (go l')
            end) its)
  end.

(** [sorted(obj.keys())]: Python compares strings by code point. *)
Definition sorted_keys (obj : CfgNode) : list string :=
  merge_sort String.le (keys obj).

(** ["{}.{}".format(key, sub_key)] *)
Definition dotted (key sub_key : string) : string :=
  key ++ String dot sub_key.

(** The inner function [_find_all_keys]: the assertion of line 23, then
    the loop over the sorted keys, which appends to [ret].
    [value = obj[key]] is a lookup by a sorted key, so the recursion is
    bounded by the nesting depth of [obj] rather than structural;
    [_find_all_keys_rec_paths] and [leaf_paths_rec_fuel] show that any
    bound from [height obj] on gives the same result. *)
Fixpoint _find_all_keys_rec (depth : nat) (obj : CfgNode)
  : res (list string) :=
  match depth with
  | O => Ok []
  | S depth' =>
      if negb (is_CfgNode (VCfg obj)) then Raise AssertionError
      else
        fold_res
          (fun ret key =>
             match dict_get (items obj) key with
             | Some value =>
                 match as_CfgNode value with
                 | Some value =>
                     sub_keys ← _find_all_keys_rec depth' value;
                     Ok (ret ++ (dotted key <$> sub_keys))
                 | None => Ok (ret ++ [key])
                 end
             | None => Raise KeyError
             end)
          [] (sorted_keys obj)
  end.

Definition _find_all_keys (obj : CfgNode) : res (list string) :=
  _find_all_keys_rec (height obj) obj.

(** [obj[k]] for a string [k]: only a mapping can be indexed by a
    string. *)
Definition py_getitem (obj : value) (k : string) : res value :=
  match obj with
  | VCfg c =>
      match dict_get (items c) k with
      | Some v => Ok v
      | None => Raise KeyError
      end
  | _ => Raise TypeError
  end.

Fixpoint _get_value_loop (obj : value) (ks : list string) : res value :=
  match ks with
  | [] => Ok obj
  | k :: ks' =>
      match py_getitem obj k with
      | Ok obj' => _get_value_loop obj' ks'
      | Raise e => Raise e
      end
  end.

Definition _get_value (obj : CfgNode) (full_key : string) : res value :=
  _get_value_loop (VCfg obj) (split_on dot full_key).

(** One row of [diff_table]: [[full_key, old_value, new_value]]. *)
Definition diff_row : Type := string * value * value.

Fixpoint diff_loop (cfg original_cfg : CfgNode) (all_new_keys : list string)
    (diff_table : list diff_row) : res (list diff_row) :=
  match all_new_keys with
  | [] => Ok diff_table
  | full_key :: rest =>
      old_value ← _get_value original_cfg full_key;
      new_value ← _get_value cfg full_key;
      diff_loop cfg original_cfg rest
        (if negb (py_eq old_value new_value)
         then diff_table ++ [(full_key, old_value, new_value)]
         else diff_table)
  end.

(** The body of [get_cfg_diff_table] up to the rendering of the table. *)
Definition diff_table (cfg original_cfg : CfgNode) : res (list diff_row) :=
  all_old_keys ← _find_all_keys original_cfg;
  all_new_keys ← _find_all_keys cfg;
  if bool_decide (all_old_keys = all_new_keys)
  then diff_loop cfg original_cfg all_new_keys []
  else Raise AssertionError.

Section Rendering.
(** [tabulate(diff_table, tablefmt="pipe", headers=[...])] of the
    [tabulate] package. *)
Variable tabulate : list diff_row -> string.

Definition get_cfg_diff_table (cfg original_cfg : CfgNode) : res string :=
  diff_table ← diff_table cfg original_cfg;
  Ok (tabulate diff_table).
End Rendering.

(** The lookup of a dotted path as the specification words it: every
    segment must be present, and every segment but the last must resolve
    to a node. *)
Fixpoint lookup_path (v : value) (segments : list string) : option value :=
  match segments with
  | [] => Some v
  | seg :: rest =>
      match v with
      | VCfg c =>
          match dict_get (items c) seg with
          | Some w => lookup_path w rest
          | None => None
          end
      | _ => None
      end
  end.

(** ** Induction on values *)

Section value_ind.
Variable P : value -> Prop.
Hypothesis HNone : P VNone.
Hypothesis HBool : forall b, P (VBool b).
Hypothesis HInt : forall n, P (VInt n).
Hypothesis HFloat : forall id x, P (VFloat id x).
Hypothesis HStr : forall s, P (VStr s).
Hypothesis HList : forall l, Forall P l -> P (VList l).
Hypothesis HCfg :
  forall cls imm its,
    Forall (fun kv => P kv.2) its -> P (VCfg (Node cls imm its)).

Fixpoint value_ind (v : value) : P v :=
  match v with
  | VNone => HNone
  | VBool b => HBool b
  | VInt n => HInt n
  | VFloat id x => HFloat id x
  | VStr s => HStr s
  | VList l =>
      HList l
        ((fix go (l : list value) : Forall P l :=
            match l with
            | [] => @List.Forall_nil _ P
            | x :: l' => @List.Forall_cons _ P x l' (value_ind x) (go l')
            end) l)
  | VCfg (Node cls imm its) =>
      HCfg cls imm its
        ((fix go (l : list (string * value))
            : Forall (fun kv => P kv.2) l :=
            match l with
            | [] => @List.Forall_nil _ _
            | kv :: l' =>
                @List.Forall_cons _ (fun kv => P kv.2) kv l' (value_ind kv.2) (go l')
            end) its)
  end.
End value_ind.

(** ** Leaves of a config tree *)

(** [isinstance(v, _CfgNode)]: a node of either class. *)
Definition is_node (v : value) : bool :=
  match v with VCfg _ => true | _ => false end.

(** A leaf of [obj] is a non-empty path of keys that leads, through
    nodes only, to a value that is not a node. *)
Definition is_leaf (obj : CfgNode) (p : list string) (v : value) : Prop :=
  p <> [] /\ lookup_path (VCfg obj) p = Some v /\ is_node v = false.

(** A flattened leaf of [obj] is what the traversals of
    [_find_all_keys] and [_as_flattened_dict] stop at: a non-empty path
    of keys that leads, through nodes of the class [CfgNode] only, to a
    value that is no instance of [CfgNode].  A node of the parent class
    is such a value. *)
Fixpoint is_flat_leaf (obj : CfgNode) (p : list string) (v : value) : Prop :=
  match p with
  | [] => False
  | key :: rest =>
      match dict_get (items obj) key with
      | Some w =>
          match as_CfgNode w with
          | Some sub => is_flat_leaf sub rest v
          | None => rest = [] /\ v = w
          end
      | None => False
      end
  end.

(** ["."].join(p) *)
Fixpoint join_dots (p : list string) : string :=
  match p with
  | [] => EmptyString
  | [k] => k
  | k :: rest => dotted k (join_dots rest)
  end.

(** Keys without a dot, in a string and in every node of a tree. *)
Fixpoint no_dot (s : string) : bool :=
  match s with
  | EmptyString => true
  | String c s' => negb (Ascii.eqb c dot) && no_dot s'
  end.

Fixpoint dot_free (c : CfgNode) : bool :=
  match c with
  | Node _ _ its =>
      forallb
        (fun kv =>
           no_dot kv.1
           && match kv.2 with VCfg c' => dot_free c' | _ => true end)
        its
  end.

(** The paths of the flattened leaves in the order of the traversal of
    [_find_all_keys]. *)
Fixpoint leaf_paths_rec (depth : nat) (obj : CfgNode) : list (list string) :=
  match depth with
  | O => []
  | S depth' =>
      key ← sorted_keys obj;
      match dict_get (items obj) key with
      | Some w =>
          match as_CfgNode w with
          | Some value => (key ::.) <$> leaf_paths_rec depth' value
          | None => [[key]]
          end
      | None => [[key]]
      end
  end.

Definition leaf_paths (obj : CfgNode) : list (list string) :=
  leaf_paths_rec (height obj) obj.

(** Key paths compared segment by segment. *)
Fixpoint path_lt (p q : list string) : Prop :=
  match p, q with
  | _, [] => False
  | [], _ :: _ => True
  | a :: p', b :: q' => strict String.le a b \/ (a = b /\ path_lt p' q')
  end.

Definition dotted_lt (a b : string) : Prop :=
  path_lt (split_on dot a) (split_on dot b).

(** The row of a leaf path, if the two trees differ there. *)
Definition changed_row (cfg original_cfg : CfgNode) (p : list string)
  : option diff_row :=
  match lookup_path (VCfg original_cfg) p, lookup_path (VCfg cfg) p with
  | Some old_value, Some new_value =>
      if negb (py_eq old_value new_value)
      then Some (join_dots p, old_value, new_value)
      else None
  | _, _ => None
  end.

(** ** The state monad of code that mutates objects in place

    A computation takes the state of the objects it can reach and
    returns its result, or the exception it raised, with their state
    then. *)

Definition M (S A : Type) : Type := S -> res A * S.

#[global] Instance M_ret {S} : MRet (M S) := fun A a st => (Ok a, st).

#[global] Instance M_bind {S} : MBind (M S) := fun A B k m st =>
  match m st with
  | (Ok a, st') => k a st'
  | (Raise e, st') => (Raise e, st')
  end.

Definition lift {S A} (r : res A) : M S A := fun st => (r, st).
Definition gets {S A} (f : S -> A) : M S A := fun st => (Ok (f st), st).
Definition modify {S} (f : S -> S) : M S unit := fun st => (Ok tt, f st).

(** [assert b] *)
Definition py_assert {S} (b : bool) : M S unit :=
  if b then mret tt else lift (Raise AssertionError).

(** [for x in xs: body(x)] *)
Fixpoint for_each {S A} (xs : list A) (body : A -> M S unit) : M S unit :=
  match xs with
  | [] => mret tt
  | x :: xs' => body x ≫= fun _ => for_each xs' body
  end.

(** ** Attribute access on nodes *)

(** [obj.name]: [CfgNode.__getattr__] looks the name up among the keys;
    the names read by the embedded code are no attributes of the other
    value types. *)
Definition py_getattr (obj : value) (name : string) : res value :=
  match obj with
  | VCfg c =>
      match dict_get (items c) name with
      | Some v => Ok v
      | None => Raise AttributeError
      end
  | _ => Raise AttributeError
  end.

(** Modelled from the spec: [CfgNode.is_frozen] of the node primitive
    ([yacs], outside this repository), which reads the frozen flag of
    the node. *)
Definition is_frozen (c : CfgNode) : bool := immutable c.

(** Modelled from the spec: [obj.name = v], that is
    [CfgNode.__setattr__] of the node primitive ([yacs]).  It fails on a
    frozen node, as every in-place mutation does, and stores the value
    under the key otherwise; the other value types have no such
    attribute to set. *)
Definition py_setattr (obj : value) (name : string) (v : value) : res value :=
  match obj with
  | VCfg (Node cls imm its) =>
      if imm then Raise AttributeError
      else Ok (VCfg (Node cls imm (dict_set its name v)))
  | _ => Raise AttributeError
  end.

(** [obj.a1. ... .an.name = v]: the node [obj.a1. ... .an] is mutated in
    place, so the nodes above it hold the mutated node afterwards. *)
Fixpoint setattr_path (obj : value) (path : list string) (name : string)
    (v : value) : res value :=
  match path with
  | [] => py_setattr obj name v
  | a :: rest =>
      sub ← py_getattr obj a;
      sub' ← setattr_path sub rest name v;
      match obj with
      | VCfg (Node cls imm its) => Ok (VCfg (Node cls imm (dict_set its a sub')))
      | _ => Raise AttributeError
      end
  end.

(** Modelled from the spec: [CfgNode._immutable(flag)] of the node
    primitive ([yacs]), behind [freeze()] and [defrost()].  The flag is
    set on the node and on every node below it. *)
Fixpoint _immutable (is_immutable : bool) (c : CfgNode) : CfgNode :=
  match c with
  | Node cls _ its =>
      Node cls is_immutable
        ((fix go (l : list (string * value)) : list (string * value) :=
            match l with
            | [] => []
            | (k, v) :: l' =>
                (k, match v with
                    | VCfg c' => VCfg (_immutable is_immutable c')
                    | _ => v
                    end) :: go l'
            end) its)
  end.

Definition freeze (c : CfgNode) : CfgNode := _immutable true c.
Definition defrost (c : CfgNode) : CfgNode := _immutable false c.

(** Modelled from the spec: [CfgNode.clone()] of the node primitive, a
    deep copy.  The copy has the class, the content and the frozen flags
    of the original, and it holds the float objects of the original, as
    a deep copy does with immutable numbers; in a model of values it is
    the value itself, and later mutations of the original do not reach
    it. *)
Definition clone (c : CfgNode) : CfgNode := c.

(** ** [auto_scale_world_size] *)

(** What a run leaves behind besides the config: the log lines and the
    calls of registered scaling methods, in order. *)
Inductive event : Type :=
| LogApplying (scaling_method : value)
| Invoked (name : string)
| LogAutoScaled (table : string)
| LogArchDefChanged.

(** A registered scaling method is called with [(cfg, new_world_size)],
    updates [cfg] in place and may raise; its return value is ignored. *)
Definition scaling_method : Type := CfgNode -> Z -> res value * CfgNode.

(** The objects a run of [auto_scale_world_size] touches. *)
Record scaler_state : Type := {
  scaled_cfg : CfgNode;
  trace : list event
}.

Definition emit (e : event) : M scaler_state unit :=
  modify (fun st => {| scaled_cfg := scaled_cfg st; trace := trace st ++ [e] |}).

Definition update_cfg (f : CfgNode -> CfgNode) : M scaler_state unit :=
  modify (fun st => {| scaled_cfg := f (scaled_cfg st); trace := trace st |}).

(** [len(v)] *)
Definition py_len (v : value) : res nat :=
  match v with
  | VStr s => Ok (String.length s)
  | VList l => Ok (length l)
  | VCfg c => Ok (length (items c))
  | _ => Raise TypeError
  end.

(** The elements [for x in v] goes through, for the list [v] holds when
    the loop starts. *)
Definition py_iter (v : value) : res (list value) :=
  match v with
  | VStr s => Ok ((fun c => VStr (String c EmptyString)) <$> list_ascii_of_string s)
  | VList l => Ok l
  | VCfg c => Ok (VStr <$> keys c)
  | _ => Raise TypeError
  end.

Section AutoScale.
(** [CONFIG_SCALING_METHOD_REGISTRY], the name to method map of the
    [fvcore] registry, filled before the first run. *)
Variable CONFIG_SCALING_METHOD_REGISTRY : list (string * scaling_method).
Variable tabulate : list diff_row -> string.

(** [CONFIG_SCALING_METHOD_REGISTRY.get(name)]: [KeyError] for a name
    that is not registered, [TypeError] for an unhashable name.  A list
    and a node of the parent class are unhashable; a node of the class
    [CfgNode] has the [__hash__] of line 94, and is no registered
    name. *)
Definition registry_get (name : value) : res (string * scaling_method) :=
  match name with
  | VStr s =>
      match dict_get CONFIG_SCALING_METHOD_REGISTRY s with
      | Some method => Ok (s, method)
      | None => Raise KeyError
      end
  | VList _ => Raise TypeError
  | VCfg c => if is_CfgNode (VCfg c) then Raise KeyError else Raise TypeError
  | _ => Raise KeyError
  end.

(** [cfg.SOLVER.<name>] *)
Definition read_solver (name : string) : M scaler_state value :=
  cfg ← gets scaled_cfg;
  lift (solver ← py_getattr (VCfg cfg) "SOLVER"; py_getattr solver name).

(** [cfg.SOLVER.<name> = v] *)
Definition write_solver (name : string) (v : value) : M scaler_state unit :=
  cfg ← gets scaled_cfg;
  cfg' ← lift (setattr_path (VCfg cfg) ["SOLVER"] name v);
  match cfg' with
  | VCfg c => update_cfg (fun _ => c)
  | _ => lift (Raise AttributeError)
  end.

(** [method(cfg, new_world_size)] on the config of the state *)
Definition call_method (method : scaling_method) (new_world_size : Z)
  : M scaler_state unit :=
  fun st =>
    let '(r, cfg') := method (scaled_cfg st) new_world_size in
    (match r with Ok _ => Ok tt | Raise e => Raise e end,
     {| scaled_cfg := cfg'; trace := trace st |}).

(** The body of the loop over [cfg.SOLVER.AUTO_SCALING_METHODS]:
    [CONFIG_SCALING_METHOD_REGISTRY.get(scaling_method)(cfg, new_world_size)]
    after the log line. *)
Definition apply_scaling_method (new_world_size : Z) (name : value)
  : M scaler_state unit :=
  _ ← emit (LogApplying name);
  found ← lift (registry_get name);
  _ ← emit (Invoked found.1);
  call_method found.2 new_world_size.

(** Lines 206-209: the assertion on the list of methods and the loop
    that applies them. *)
Definition run_scaling_methods (new_world_size : Z) : M scaler_state unit :=
  methods ← read_solver "AUTO_SCALING_METHODS";
  n ← lift (py_len methods);
  _ ← py_assert (0 <? n)%nat;
  methods ← read_solver "AUTO_SCALING_METHODS";
  names ← lift (py_iter methods);
  for_each names (apply_scaling_method new_world_size).

(** Lines 211-220: the assertion on the reference world size, its
    update, the re-freeze and the diff table; the function ends without
    a [return]. *)
Definition finish_scaling (new_world_size : Z) (frozen : bool)
    (original_cfg : CfgNode) : M scaler_state value :=
  lhs ← read_solver "REFERENCE_WORLD_SIZE";
  rhs ← read_solver "REFERENCE_WORLD_SIZE";
  _ ← py_assert (py_eq lhs rhs);
  _ ← write_solver "REFERENCE_WORLD_SIZE" (VInt new_world_size);
  _ ← (if frozen then update_cfg freeze else mret tt);
  cfg ← gets scaled_cfg;
  table ← lift (get_cfg_diff_table tabulate cfg original_cfg);
  _ ← emit (LogAutoScaled table);
  mret VNone.

Definition auto_scale_world_size (new_world_size : Z)
  : M scaler_state value :=
  old_world_size ← read_solver "REFERENCE_WORLD_SIZE";
  if py_eq old_world_size (VInt 0)
     || py_eq old_world_size (VInt new_world_size)
  then
    cfg ← gets scaled_cfg; mret (VCfg cfg)
  else
    cfg ← gets scaled_cfg;
    let original_cfg := clone cfg in
    let frozen := is_frozen original_cfg in
    _ ← update_cfg defrost;
    _ ← run_scaling_methods new_world_size;
    finish_scaling new_world_size frozen original_cfg.
End AutoScale.

(** ** [CfgNode.merge_from_other_cfg] *)

(** The objects a call [self.merge_from_other_cfg(cfg_other)] touches:
    the receiver, the argument, and the log.  The receiver and the
    argument are two objects. *)
Record merge_state : Type := {
  self_cfg : CfgNode;
  other_cfg : CfgNode;
  merge_log : list event
}.

(** [obj.get(k, {})]: the default is an empty plain [dict], which the
    model holds as an empty mapping; only [get] is applied to it. *)
Definition get_or_empty (obj : value) (k : string) : res value :=
  match obj with
  | VCfg c =>
      Ok (match dict_get (items c) k with
          | Some v => v
          | None => VCfg (Node Detectron2 false [])
          end)
  | _ => Raise AttributeError
  end.

(** [obj.get(k, None)] *)
Definition get_or_None (obj : value) (k : string) : res value :=
  match obj with
  | VCfg c =>
      Ok (match dict_get (items c) k with
          | Some v => v
          | None => VNone
          end)
  | _ => Raise AttributeError
  end.

Section MergeFromOtherCfg.
(** [_CfgNode.merge_from_other_cfg] of [yacs], the recursive merge:
    given the argument, it updates the receiver in place, may raise,
    and leaves the argument as it is. *)
Variable super_merge_from_other_cfg : CfgNode -> M CfgNode value.

Definition run_super_merge : M merge_state value :=
  fun st =>
    let '(r, self') := super_merge_from_other_cfg (other_cfg st) (self_cfg st) in
    (r, {| self_cfg := self'; other_cfg := other_cfg st;
           merge_log := merge_log st |}).

Definition merge_from_other_cfg : M merge_state value :=
  cfg_other ← gets other_cfg;
  model ← lift (get_or_empty (VCfg cfg_other) "MODEL");
  fbnet_v2 ← lift (get_or_empty model "FBNET_V2");
  arch_def ← lift (get_or_None fbnet_v2 "ARCH_DEF");
  _ ← (if py_eq arch_def (VStr "")
       then
         _ ← modify (fun st =>
                {| self_cfg := self_cfg st; other_cfg := other_cfg st;
                   merge_log := merge_log st ++ [LogArchDefChanged] |});
         cfg_other' ← lift (setattr_path (VCfg cfg_other)
                              ["MODEL"; "FBNET_V2"] "ARCH_DEF" (VList []));
         match cfg_other' with
         | VCfg c =>
             modify (fun st =>
               {| self_cfg := self_cfg st; other_cfg := c;
                  merge_log := merge_log st |})
         | _ => lift (Raise AttributeError)
         end
       else mret tt);
  run_super_merge.
End MergeFromOtherCfg.

(** ** [reroute_load_yaml_with_base], [CfgNode.load_yaml_with_base] and
    [CfgNode.merge_from_file] *)

(** A YAML mapping, as a parser returns it. *)
Definition document : Type := list (string * value).

(** What a YAML parser returns: a mapping, or a value that is no
    mapping (an empty file parses to [None], a sequence to a list, a
    scalar to itself). *)
Inductive yaml_doc : Type :=
| YMapping (cfg : document)
| YOther (v : value).

Definition BASE_KEY : string := "_BASE_".

(** The objects a load touches: the receiver of [merge_from_file] and
    the arguments [reroute_config_path] was called with, in order. *)
Record load_state : Type := {
  target_cfg : CfgNode;
  reroute_calls : list value
}.

(** [k in s] for two strings: [k] occurs in [s]. *)
Definition is_substring (k s : string) : bool :=
  match String.index 0 k s with
  | Some _ => true
  | None => false
  end.

(** [k in cfg] for a string [k]: a key of a mapping, an item of a list,
    a part of a string; the other values are not iterable. *)
Definition py_contains (cfg : yaml_doc) (k : string) : res bool :=
  match cfg with
  | YMapping d => Ok (match dict_get d k with Some _ => true | None => false end)
  | YOther (VCfg c) =>
      Ok (match dict_get (items c) k with Some _ => true | None => false end)
  | YOther (VList l) => Ok (existsb (fun x => py_eq x (VStr k)) l)
  | YOther (VStr s) => Ok (is_substring k s)
  | YOther _ => Raise TypeError
  end.

(** [cfg[k]] for a string [k] *)
Definition doc_getitem (cfg : yaml_doc) (k : string) : res value :=
  match cfg with
  | YMapping d =>
      match dict_get d k with
      | Some v => Ok v
      | None => Raise KeyError
      end
  | YOther v => py_getitem v k
  end.

(** [cfg[k] = v] for a string [k]: [dict.__setitem__], which does not
    look at a frozen flag; a list and a string take no string index. *)
Definition doc_setitem (cfg : yaml_doc) (k : string) (v : value)
  : res yaml_doc :=
  match cfg with
  | YMapping d => Ok (YMapping (dict_set d k v))
  | YOther (VCfg (Node cls imm its)) =>
      Ok (YOther (VCfg (Node cls imm (dict_set its k v))))
  | YOther _ => Raise TypeError
  end.

Section Reroute.
(** An open file. *)
Context {File : Type}.

(** [reroute_config_path] of [d2go.utils.helper]: the path rewriting
    collaborator, a function of the value it is given. *)
Variable reroute_config_path : value -> res value.

(** A function that parses an open file: [yaml.safe_load],
    [yaml.unsafe_load], or what a patch put in their place. *)
Definition loader : Type := File -> M load_state yaml_doc.

(** The attributes [safe_load] and [unsafe_load] of the module [yaml],
    as they are at some point of a run. *)
Record yaml_module : Type := {
  safe_load : loader;
  unsafe_load : loader
}.

Definition call_reroute (path : value) : M load_state value :=
  _ ← modify (fun st =>
         {| target_cfg := target_cfg st;
            reroute_calls := reroute_calls st ++ [path] |});
  lift (reroute_config_path path).

(** Lines 161-163 and 167-169, the body shared by [mock_safe_load] and
    [mock_unsafe_load] after the call of the captured loader. *)
Definition reroute_base (cfg : yaml_doc) : M load_state yaml_doc :=
  has_base ← lift (py_contains cfg BASE_KEY);
  if has_base : bool
  then
    base ← lift (doc_getitem cfg BASE_KEY);
    base' ← call_reroute base;
    lift (doc_setitem cfg BASE_KEY base')
  else mret cfg.

Definition mock_safe_load (_safe_load : loader) : loader :=
  fun f => cfg ← _safe_load f; reroute_base cfg.

Definition mock_unsafe_load (_unsafe_load : loader) : loader :=
  fun f => cfg ← _unsafe_load f; reroute_base cfg.

(** [with reroute_load_yaml_with_base(): body].  Lines 156-157 capture
    the two loaders in force on entry, which are mocks already when the
    context is entered inside itself; [mock.patch] puts the two mocks in
    their place for the body and restores the captured loaders on exit,
    also when the body raises.  The body is given the module as it is
    patched. *)
Definition reroute_load_yaml_with_base {A : Type} (yaml : yaml_module)
    (body : yaml_module -> M load_state A) : M load_state A :=
  let _safe_load := safe_load yaml in
  let _unsafe_load := unsafe_load yaml in
  body {| safe_load := mock_safe_load _safe_load;
          unsafe_load := mock_unsafe_load _unsafe_load |}.

(** [_CfgNode.load_yaml_with_base] of [fvcore], the loader that
    resolves [_BASE_]: it takes the module [yaml] as it is when it runs,
    and the file name. *)
Variable parent_load_yaml_with_base :
  yaml_module -> value -> M load_state yaml_doc.

(** [CfgNode.load_yaml_with_base], lines 75-78, called while the module
    [yaml] is as given. *)
Definition load_yaml_with_base (yaml : yaml_module) (filename : value)
  : M load_state yaml_doc :=
  reroute_load_yaml_with_base yaml
    (fun yaml => parent_load_yaml_with_base yaml filename).

(** [_CfgNode.merge_from_file] of [detectron2].  It takes the method
    [load_yaml_with_base] of the receiver, the module [yaml] as it is
    when it runs, and the file name. *)
Variable super_merge_from_file :
  (yaml_module -> value -> M load_state yaml_doc) ->
  yaml_module -> value -> M load_state value.

(** [CfgNode.merge_from_file], lines 70-73, called while the module
    [yaml] is as given.  The receiver is a [CfgNode] of this file, so
    its [load_yaml_with_base] is the one of lines 75-78. *)
Definition merge_from_file (yaml : yaml_module) (cfg_filename : value)
  : M load_state value :=
  cfg_filename ← call_reroute cfg_filename;
  reroute_load_yaml_with_base yaml
    (fun yaml => super_merge_from_file load_yaml_with_base yaml cfg_filename).

(** The module [yaml] inside one more [reroute_load_yaml_with_base]. *)
Definition patched (yaml : yaml_module) : yaml_module :=
  {| safe_load := mock_safe_load (safe_load yaml);
     unsafe_load := mock_unsafe_load (unsafe_load yaml) |}.

(** What a patched loader does with what the captured loader returns.
    An exception of the captured loader is passed on.  A mapping without
    the reserved key comes back as it is and the collaborator is not
    called; for a mapping with the key the collaborator is called once,
    with the whole value of the key, and its result replaces that value,
    the other keys keeping their values.  For a value that is no
    mapping the collaborator is not called: the value comes back as it
    is, or the patched loader raises [TypeError]. *)
Definition reroutes_base_once (load patched_load : loader) : Prop :=
  forall f st,
    match load f st with
    | (Raise e, st0) => patched_load f st = (Raise e, st0)
    | (Ok (YMapping d), st0) =>
        match dict_get d BASE_KEY with
        | None => patched_load f st = (Ok (YMapping d), st0)
        | Some base =>
            reroute_calls (patched_load f st).2 = reroute_calls st0 ++ [base]
            /\ target_cfg (patched_load f st).2 = target_cfg st0
            /\ match reroute_config_path base with
               | Ok base' =>
                   exists cfg,
                     (patched_load f st).1 = Ok (YMapping cfg)
                     /\ dict_get cfg BASE_KEY = Some base'
                     /\ forall k, k <> BASE_KEY ->
                                  dict_get cfg k = dict_get d k
               | Raise e => (patched_load f st).1 = Raise e
               end
        end
    | (Ok (YOther v), st0) =>
        is_node v = false ->
        (patched_load f st).2 = st0
        /\ ((patched_load f st).1 = Ok (YOther v)
            \/ (patched_load f st).1 = Raise TypeError)
    end.
End Reroute.

(** ** [CfgNode.__hash__] *)

(** Key and rendered value of one item of a mapping, compared by key. *)
Definition key_le (a b : string * string) : Prop := String.le a.1 b.1.

#[global] Instance key_le_dec : RelDecision key_le.
Proof. intros a b. unfold key_le. apply _. Defined.

(** Modelled from the spec: the text of a float in [CfgNode.dump()]. *)
Definition dump_float (x : spec_float) : string :=
  match x with
  | S754_zero s => if s then "-0.0" else "0.0"
  | S754_infinity s => if s then "-.inf" else ".inf"
  | S754_nan => ".nan"
  | S754_finite s m e =>
      (if s then "-" else "") +:+ pretty (Z.pos m) +:+ "p" +:+ pretty e
  end.

(** Modelled from the spec: [CfgNode.dump()] of the node primitive, the
    deterministic full serialisation of a tree, with the keys of every
    mapping in sorted order; the classes and the frozen flags of the
    nodes are no part of it.  The text is YAML in flow style. *)
Fixpoint dump_value (v : value) : string :=
  match v with
  | VNone => "null"
  | VBool b => if b then "true" else "false"
  | VInt n => pretty n
  | VFloat _ x => dump_float x
  | VStr s => String "'"%char (s +:+ "'")
  | VList l => "[" +:+ String.concat ", " (dump_value <$> l) +:+ "]"
  | VCfg (Node _ _ its) =>
      "{" +:+ String.concat ", "
                ((fun kv : string * string => kv.1 +:+ ": " +:+ kv.2)
                   <$> merge_sort key_le
                         ((fun kv : string * value => (kv.1, dump_value kv.2))
                            <$> its))
          +:+ "}"
  end.

Definition dump (self : CfgNode) : string := dump_value (VCfg self).

Section Hash.
(** Python's [hash] of a [str], fixed for the run of a process. *)
Variable hash : string -> Z.

Definition __hash__ (self : CfgNode) : Z := hash (dump self).
End Hash.

(** Structural equality of trees: nodes of the same class with the same
    keys and the same values at every level, whatever the order in which
    the keys were inserted, whatever the frozen flags and whichever
    float objects hold the numbers. *)
#[local] Unset Elimination Schemes.
Inductive same_value : value -> value -> Prop :=
| same_None : same_value VNone VNone
| same_Bool b : same_value (VBool b) (VBool b)
| same_Int n : same_value (VInt n) (VInt n)
| same_Float i j x : same_value (VFloat i x) (VFloat j x)
| same_Str s : same_value (VStr s) (VStr s)
| same_List l1 l2 :
    Forall2 same_value l1 l2 -> same_value (VList l1) (VList l2)
| same_Cfg cls imm1 imm2 its1 its2 :
    (forall k, option_Forall2 same_value (dict_get its1 k) (dict_get its2 k)) ->
    same_value (VCfg (Node cls imm1 its1)) (VCfg (Node cls imm2 its2)).
#[local] Set Elimination Schemes.

(** The value a node holds after [_immutable]. *)
Definition with_flag (b : bool) (v : value) : value :=
  match v with
  | VCfg c => VCfg (_immutable b c)
  | _ => v
  end.

(** ** Notions used in the statements *)

(** [cfg.SOLVER.REFERENCE_WORLD_SIZE] *)
Definition reference_world_size (cfg : CfgNode) : res value :=
  solver ← py_getattr (VCfg cfg) "SOLVER";
  py_getattr solver "REFERENCE_WORLD_SIZE".

(** The condition of line 199, under which nothing is scaled. *)
Definition no_scaling_needed (old_world_size : value) (new_world_size : Z)
  : bool :=
  py_eq old_world_size (VInt 0) || py_eq old_world_size (VInt new_world_size).

(** The deprecated field. *)
Definition ARCH_DEF_path : list string := ["MODEL"; "FBNET_V2"; "ARCH_DEF"].

(** ** A sample registry and sample configs *)

(** A scaling method that stores [v] in [cfg.SOLVER.<name>]. *)
Definition set_solver_field (name : string) (v : value) : scaling_method :=
  fun cfg _ =>
    match setattr_path (VCfg cfg) ["SOLVER"] name v with
    | Ok (VCfg c) => (Ok VNone, c)
    | Ok _ => (Raise AttributeError, cfg)
    | Raise e => (Raise e, cfg)
    end.

(** The float NaN, held by the float object 1. *)
Definition nan : value := VFloat 1 S754_nan.

Definition sample_registry : list (string * scaling_method) :=
  [("scale_lr", set_solver_field "BASE_LR" (VInt 20));
   ("set_reference", set_solver_field "REFERENCE_WORLD_SIZE" (VInt 4));
   ("set_reference_nan", set_solver_field "REFERENCE_WORLD_SIZE" nan);
   ("freeze_cfg", fun cfg _ => (Ok VNone, freeze cfg))].

(** A config written for 8 devices that names its scaling methods. *)
Definition sample_cfg (frozen : bool) (methods : list string) : CfgNode :=
  Node D2go frozen
    [("SOLVER",
      VCfg (Node D2go frozen
              [("REFERENCE_WORLD_SIZE", VInt 8);
               ("AUTO_SCALING_METHODS", VList (VStr <$> methods));
               ("BASE_LR", VInt 10)]))].

Definition sample_tabulate (t : list diff_row) : string :=
  String.concat "|" t.*1.*1.

(** A sample recursive merge: the items of the argument are stored in
    the receiver, one level deep. *)
Definition overlay_merge : CfgNode -> M CfgNode value :=
  fun cfg_other self =>
    (Ok VNone,
     Node (class_of self) (immutable self)
       (foldl (fun its kv => dict_set its kv.1 kv.2) (items self)
          (items cfg_other))).

(** An old full config, with the old default of the deprecated field. *)
Definition old_full_cfg (frozen : bool) : CfgNode :=
  Node D2go frozen
    [("MODEL",
      VCfg (Node D2go frozen
              [("FBNET_V2",
                VCfg (Node D2go frozen [("ARCH_DEF", VStr "")]));
               ("DEVICE", VStr "cpu")]))].

(** A sample collaborator: it rewrites the paths of the [d2go://]
    scheme, and fails on a value that is no string, as a function that
    calls [path.startswith] does. *)
Definition sample_reroute (path : value) : res value :=
  match path with
  | VStr s =>
      if String.prefix "d2go://" s
      then Ok (VStr ("/pkg/d2go/" +:+ String.substring 7 (String.length s - 7) s))
      else Ok (VStr s)
  | _ => Raise AttributeError
  end.

(** A document that inherits from two bases. *)
Definition two_bases_doc : document :=
  [("_BASE_", VList [VStr "d2go://a.yaml"; VStr "d2go://b.yaml"]);
   ("SEED", VInt 1)].

(** A sample parser: the open file is the parsed document. *)
Definition sample_load : @loader yaml_doc :=
  fun f st => (Ok f, st).

Definition sample_yaml : @yaml_module yaml_doc :=
  {| safe_load := sample_load; unsafe_load := sample_load |}.

(** Sample files, by name. *)
Definition sample_files : list (string * yaml_doc) :=
  [("/pkg/d2go/top.yaml",
    YMapping [("_BASE_", VStr "d2go://base.yaml"); ("SEED", VInt 1)]);
   ("/pkg/d2go/base.yaml",
    YMapping [("SEED", VInt 0); ("LR", VInt 1)])].

(** [open(filename)] on the sample files; a file that does not exist
    reads as an empty file here. *)
Definition sample_open (filename : value) : yaml_doc :=
  match filename with
  | VStr s =>
      match dict_get sample_files s with
      | Some doc => doc
      | None => YOther VNone
      end
  | _ => YOther VNone
  end.

(** A sample of the loader that resolves [_BASE_], in the manner of
    [fvcore]: the file is parsed by [yaml.safe_load] as it is in force,
    and a base named by a single path is loaded by the same loader, at
    most [depth] files deep; the merge of the two documents is left
    out. *)
Fixpoint sample_parent_load (depth : nat) (yaml : @yaml_module yaml_doc)
    (filename : value) : M load_state yaml_doc :=
  match depth with
  | O => mret (YOther VNone)
  | S depth' =>
      cfg ← safe_load yaml (sample_open filename);
      match cfg with
      | YMapping d =>
          match dict_get d BASE_KEY with
          | Some base =>
              _ ← sample_parent_load depth' yaml base;
              mret cfg
          | None => mret cfg
          end
      | YOther _ => mret cfg
      end
  end.

(** A sample of the inherited [merge_from_file], in the manner of
    [detectron2]: the file is loaded by the method [load_yaml_with_base]
    of the receiver; the merge into the receiver is left out. *)
Definition sample_super_merge_from_file
    (load_yaml_with_base : @yaml_module yaml_doc -> value -> M load_state yaml_doc)
    (yaml : @yaml_module yaml_doc) (cfg_filename : value)
  : M load_state value :=
  _ ← load_yaml_with_base yaml cfg_filename;
  mret VNone.

(** The same config built in two orders, one of them frozen. *)
Definition built_lr_first : CfgNode :=
  Node D2go false
    [("SOLVER", VCfg (Node D2go false [("BASE_LR", VInt 10); ("STEPS", VList [VInt 30; VInt 60])]));
     ("SEED", VInt 1)].

Definition built_seed_first : CfgNode :=
  Node D2go true
    [("SEED", VInt 1);
     ("SOLVER", VCfg (Node D2go true [("STEPS", VList [VInt 30; VInt 60]); ("BASE_LR", VInt 10)]))].

(** Two configs with the same keys: three leaves, one nested. *)
Definition lr_old : CfgNode :=
  Node D2go false
    [("SOLVER", VCfg (Node D2go false [("BASE_LR", VInt 10); ("MAX_ITER", VInt 900)]));
     ("SEED", VInt 1)].

Definition lr_new : CfgNode :=
  Node D2go false
    [("SEED", VInt 1);
     ("SOLVER", VCfg (Node D2go false [("MAX_ITER", VInt 450); ("BASE_LR", VInt 20)]))].

(** Two configs with a hyphen in a key. *)
Definition hyphen_old : CfgNode :=
  Node D2go false
    [("A", VCfg (Node D2go false [("X", VInt 1)])); ("A-B", VInt 1)].

Definition hyphen_new : CfgNode :=
  Node D2go false
    [("A", VCfg (Node D2go false [("X", VInt 2)])); ("A-B", VInt 2)].

(** A config with a child of the parent class. *)
Definition mixed_cfg : CfgNode :=
  Node D2go false
    [("A", VCfg (Node Detectron2 false [("X", VInt 1)])); ("SEED", VInt 1)].

(** A config with a leaf that is NaN and a list that holds the same
    float object. *)
Definition nan_cfg : CfgNode :=
  Node D2go false [("LR", nan); ("STEPS", VList [nan])].

(** ** [CfgNode.as_flattened_dict] *)

(** [ret.update(other)] *)
Definition dict_update {V : Type} (ret other : list (string * V))
  : list (string * V) :=
  foldl (fun acc kv => dict_set acc kv.1 kv.2) ret other.

(** [f"{prefix}.{key}" if prefix else key]: the empty string is the one
    falsy string. *)
Definition key_path (prefix key : string) : string :=
  match prefix with
  | EmptyString => key
  | _ => dotted prefix key
  end.

(** [CfgNode._as_flattened_dict], with the recursion bounded by the
    nesting depth as in [_find_all_keys_rec]; the loop over
    [sorted(self.keys())] threads [ret].  A key of [sorted(self.keys())]
    is always found. *)
Fixpoint _as_flattened_dict_rec (depth : nat) (self : CfgNode)
    (prefix : string) : list (string * value) :=
  match depth with
  | O => []
  | S depth' =>
      foldl
        (fun ret key =>
           match dict_get (items self) key with
           | Some value =>
               match as_CfgNode value with
               | Some value =>
                   dict_update ret
                     (_as_flattened_dict_rec depth' value (key_path prefix key))
               | None => dict_set ret (key_path prefix key) value
               end
           | None => ret
           end)
        [] (sorted_keys self)
  end.

Definition _as_flattened_dict (self : CfgNode) (prefix : string)
  : list (string * value) :=
  _as_flattened_dict_rec (height self) self prefix.

Definition as_flattened_dict (self : CfgNode) : list (string * value) :=
  _as_flattened_dict self EmptyString.

(** The entry of the flattened dictionary for the leaf path [p]. *)
Definition flat_entry (prefix : string) (obj : CfgNode) (p : list string)
  : string * value :=
  (key_path prefix (join_dots p),
   match lookup_path (VCfg obj) p with Some v => v | None => VNone end).

(** ** Facts about dictionaries *)

Section DictFacts.
Context {V : Type}.
Implicit Types (d : list (string * V)) (k : string) (v : V).

Lemma dict_get_Some_elem d k v : dict_get d k = Some v -> (k, v) ∈ d.
Proof.
  induction d as [|[k' v'] d IH]; simpl; [discriminate|].
  destruct (String.eqb_spec k' k) as [->|Hne].
  - intros [= ->]. left.
  - intros H. right. auto.
Qed.

Lemma dict_get_None d k : dict_get d k = None <-> k ∉ d.*1.
Proof.
  induction d as [|[k' v'] d IH]; simpl.
  - split; [intros _; apply not_elem_of_nil|reflexivity].
  - rewrite not_elem_of_cons. destruct (String.eqb_spec k' k) as [->|Hne].
    + split; [discriminate|intros [[] _]; reflexivity].
    + rewrite IH. split; [intros H; split; [congruence|exact H]|intros [_ H]; exact H].
Qed.

Lemma dict_get_is_Some d k : is_Some (dict_get d k) <-> k ∈ d.*1.
Proof.
  rewrite <- not_eq_None_Some, dict_get_None.
  destruct (decide (k ∈ d.*1)); split; intros H; try done.
  intros Hn. by apply Hn.
Qed.

Lemma dict_get_elem d k v :
  NoDup d.*1 -> (k, v) ∈ d -> dict_get d k = Some v.
Proof.
  induction d as [|[k' v'] d IH]; simpl; intros Hnd Hin.
  - by apply elem_of_nil in Hin.
  - apply NoDup_cons in Hnd as [Hk' Hnd].
    apply elem_of_cons in Hin as [[= -> ->]|Hin].
    + by rewrite String.eqb_refl.
    + destruct (String.eqb_spec k' k) as [->|Hne]; [|auto].
      exfalso. apply Hk'. apply list_elem_of_fmap. by exists (k, v).
Qed.
End DictFacts.

(** ** Facts about the classes of nodes *)

Lemma as_CfgNode_Some v c : as_CfgNode v = Some c -> v = VCfg c /\ class_of c = D2go.
Proof.
  destruct v as [| | | | | |c']; try done. simpl.
  destruct (class_of c') eqn:Hc; [|done]. by intros [= <-].
Qed.

Lemma as_CfgNode_d2go c : class_of c = D2go -> as_CfgNode (VCfg c) = Some c.
Proof. simpl. by intros ->. Qed.

Lemma is_CfgNode_node v : is_CfgNode v = true -> is_node v = true.
Proof.
  unfold is_CfgNode. destruct (as_CfgNode v) as [c|] eqn:Hc; [|done].
  apply as_CfgNode_Some in Hc as [-> _]. done.
Qed.

Lemma is_CfgNode_class c : is_CfgNode (VCfg c) = true <-> class_of c = D2go.
Proof. unfold is_CfgNode. simpl. by destruct (class_of c). Qed.

(** ** Facts about well-formed values and [==] *)

Lemma wf_value_list l : wf_value (VList l) = true <-> Forall (fun v => wf_value v = true) l.
Proof. simpl. rewrite forallb_forall, Forall_forall. by setoid_rewrite list_elem_of_In. Qed.

Lemma wf_value_node cls imm its :
  wf_value (VCfg (Node cls imm its)) = true <->
  NoDup its.*1 /\ Forall (fun kv => wf_value kv.2 = true) its.
Proof.
  simpl. rewrite andb_true_iff, bool_decide_eq_true, forallb_forall, Forall_forall.
  by setoid_rewrite list_elem_of_In.
Qed.

Lemma wf_node_child c k v :
  wf_node c = true -> dict_get (items c) k = Some v -> wf_value v = true.
Proof.
  destruct c as [cls imm its]. unfold wf_node. rewrite wf_value_node.
  intros [_ Hall] Hget. apply dict_get_Some_elem in Hget.
  rewrite Forall_forall in Hall. exact (Hall _ Hget).
Qed.

Lemma wf_node_NoDup c : wf_node c = true -> NoDup (keys c).
Proof.
  destruct c as [cls imm its]. unfold wf_node. rewrite wf_value_node. by intros [? _].
Qed.

Lemma float_eqb_self x :
  float_eqb x x = match x with S754_nan => false | _ => true end.
Proof.
  destruct x as [s|s| |s m e]; simpl; try done.
  - by destruct s.
  - rewrite Z.eqb_refl. by destruct s.
Qed.

Lemma float_eqb_sym x y : float_eqb x y = float_eqb y x.
Proof.
  destruct x as [s|s| |s m e], y as [t|t| |t n e']; simpl; try done.
  - by destruct s, t.
  - rewrite (Z.min_comm e' e), (Z.eqb_sym (Z.pos n * _)). by destruct s, t.
Qed.

Lemma is_same_float_sym a b : is_same_float a b = is_same_float b a.
Proof. destruct a, b; simpl; try done. apply Pos.eqb_sym. Qed.

(** An item of a container is equal to itself for the comparison of
    the container. *)
Lemma py_eq_item_self v :
  py_eq v v = negb (is_nan v) -> is_same_float v v || py_eq v v = true.
Proof.
  destruct v as [| | |id x| | |]; simpl; intros H; rewrite ?H; try done.
  by rewrite Pos.eqb_refl.
Qed.

(** [==] is reflexive on every value but a NaN. *)
Lemma py_eq_self v : wf_value v = true -> py_eq v v = negb (is_nan v).
Proof.
  induction v as [| b | n | id x | s | l IH | cls imm its IH] using value_ind;
    intros Hwf.
  - reflexivity.
  - simpl. by destruct b.
  - simpl. apply Z.eqb_refl.
  - simpl. rewrite float_eqb_self. by destruct x.
  - simpl. apply String.eqb_refl.
  - apply wf_value_list in Hwf. simpl.
    induction l as [|x l IHl]; [reflexivity|].
    apply Forall_cons in IH as [IHx IH]. apply Forall_cons in Hwf as [Hx Hwf].
    rewrite (py_eq_item_self x (IHx Hx)). simpl. auto.
  - apply wf_value_node in Hwf as [Hnd Hwf]. simpl.
    rewrite Nat.eqb_refl. simpl.
    assert (Hsub : forall kv, kv ∈ its -> kv ∈ its) by auto.
    revert Hsub. generalize its at 1 4 as sub.
    induction sub as [|[k x] sub IHsub]; intros Hsub; [reflexivity|].
    assert (Hin : (k, x) ∈ its) by (apply Hsub; left).
    rewrite (dict_get_elem _ _ _ Hnd Hin).
    rewrite Forall_forall in IH, Hwf.
    pose proof (IH _ Hin (Hwf _ Hin)) as Hx. simpl in Hx.
    rewrite (py_eq_item_self x Hx). simpl.
    apply IHsub. intros kv Hkv. apply Hsub. by right.
Qed.

Lemma py_eq_refl v : wf_value v = true -> is_nan v = false -> py_eq v v = true.
Proof. intros Hwf Hnan. by rewrite py_eq_self, Hnan. Qed.

(** A node is equal to itself, whatever it holds. *)
Lemma py_eq_node_refl c : wf_node c = true -> py_eq (VCfg c) (VCfg c) = true.
Proof. intros Hwf. by apply py_eq_refl. Qed.

(** ** Properties of [get_field_or_none] *)

Lemma split_on_nonempty sep s : split_on sep s <> [].
Proof.
  destruct s as [|c s]; simpl; [discriminate|].
  destruct (Ascii.eqb c sep); [discriminate|].
  destruct (split_on sep s); discriminate.
Qed.

Lemma lookup_path_app v p q :
  lookup_path v (p ++ q) =
  match lookup_path v p with
  | Some w => lookup_path w q
  | None => None
  end.
Proof.
  revert v. induction p as [|seg p IH]; intros v; simpl; [reflexivity|].
  destruct v as [| | | | | |c]; try reflexivity.
  destruct (dict_get (items c) seg); [apply IH|reflexivity].
Qed.

Lemma walk_to_last_lookup_path v p : walk_to_last v p = lookup_path v p.
Proof. reflexivity. Qed.

Lemma get_field_or_none_lookup self field_path :
  get_field_or_none self field_path =
  match lookup_path (VCfg self) (split_on dot field_path) with
  | Some v => v
  | None => VNone
  end.
Proof.
  unfold get_field_or_none.
  pose proof (split_on_nonempty dot field_path) as Hne. cbv zeta.
  destruct (exists_last Hne) as (p & seg & ->).
  rewrite removelast_last, last_last.
  rewrite lookup_path_app, walk_to_last_lookup_path.
  destruct (lookup_path _ p) as [w|]; [|reflexivity].
  simpl. destruct w as [| | | | | |c]; try reflexivity.
  destruct (dict_get (items c) seg); reflexivity.
Qed.

Lemma get_field_or_none_present self field_path v :
  lookup_path (VCfg self) (split_on dot field_path) = Some v ->
  get_field_or_none self field_path = v.
Proof. intros H. by rewrite get_field_or_none_lookup, H. Qed.

(** C3 (amended): when the lookup of a dotted path fails (a segment is
    missing, or a segment before the last resolves to a value that is no
    node), [get_field_or_none] raises nothing and returns the Python
    value [None].  This result differs from the result of every lookup
    that succeeds with a value other than [None], so a failed lookup is
    told apart from a present [0], [False], [''] or [[]]; it is the
    result of a lookup that succeeds exactly when the value read is
    [None]. *)
Theorem get_field_or_none_absent self field_path :
  lookup_path (VCfg self) (split_on dot field_path) = None ->
  get_field_or_none self field_path = VNone
  /\ forall other other_path v,
       lookup_path (VCfg other) (split_on dot other_path) = Some v ->
       get_field_or_none other other_path = v
       /\ (get_field_or_none other other_path
           = get_field_or_none self field_path <-> v = VNone).
Proof.
  intros H. rewrite (get_field_or_none_lookup self), H.
  split; [done|]. intros other other_path v Hv.
  by rewrite (get_field_or_none_present _ _ _ Hv).
Qed.

Lemma get_field_or_none_absent_witness :
  get_field_or_none
    (Node D2go false [("MODEL", VCfg (Node D2go false [("DEVICE", VStr "cpu")]))])
    "MODEL.DEVICE.KIND" = VNone
  /\ forall other other_path v,
       lookup_path (VCfg other) (split_on dot other_path) = Some v ->
       get_field_or_none other other_path = v
       /\ (get_field_or_none other other_path
           = get_field_or_none
               (Node D2go false
                  [("MODEL", VCfg (Node D2go false [("DEVICE", VStr "cpu")]))])
               "MODEL.DEVICE.KIND" <-> v = VNone).
Proof. apply get_field_or_none_absent. reflexivity. Defined.

(** A failed lookup is told apart from a field that holds a falsy value
    other than [None]. *)
Example get_field_or_none_falsy :
  let absent := Node D2go false [] in
  let present v := Node D2go false [("A", v)] in
  get_field_or_none absent "A" = VNone
  /\ get_field_or_none (present (VInt 0)) "A" = VInt 0
  /\ get_field_or_none (present (VBool false)) "A" = VBool false
  /\ get_field_or_none (present (VStr "")) "A" = VStr ""
  /\ get_field_or_none (present (VList [])) "A" = VList [].
Proof. repeat split. Qed.

(** C3 (as stated, refuted): a failed lookup and a successful read of a
    field that holds [None] give the same result, so the result of a
    failed lookup is no sentinel a caller could tell from a stored
    [None]. *)
Lemma get_field_or_none_absent_not_distinct :
  let absent := Node D2go false [] in
  let present := Node D2go false [("A", VNone)] in
  lookup_path (VCfg absent) (split_on dot "A") = None
  /\ lookup_path (VCfg present) (split_on dot "A") = Some VNone
  /\ get_field_or_none absent "A" = get_field_or_none present "A".
Proof. repeat split. Qed.

(** ** The traversal reaches exactly the flattened leaves *)

Lemma height_child obj k c' :
  dict_get (items obj) k = Some (VCfg c') -> height c' < height obj.
Proof.
  destruct obj as [cls imm its]. simpl.
  induction its as [|[k' v'] its IH]; simpl; [discriminate|].
  destruct (String.eqb k' k).
  - intros [= ->]. lia.
  - intros H. specialize (IH H). lia.
Qed.

Lemma height_pos obj : 0 < height obj.
Proof. destruct obj. simpl. lia. Qed.

Lemma leaf_paths_rec_fuels d1 : forall d2 obj,
  height obj <= d1 -> height obj <= d2 ->
  leaf_paths_rec d1 obj = leaf_paths_rec d2 obj.
Proof.
  induction d1 as [|d1 IH]; intros d2 obj H1 H2.
  { pose proof (height_pos obj). lia. }
  destruct d2 as [|d2]; [pose proof (height_pos obj); lia|].
  simpl. apply list_bind_ext; [|done]. intros key.
  destruct (dict_get (items obj) key) as [w|] eqn:Hget; [|done].
  destruct (as_CfgNode w) as [sub|] eqn:Hsub; [|done].
  apply as_CfgNode_Some in Hsub as [-> _].
  apply height_child in Hget. f_equal. apply IH; lia.
Qed.

Lemma leaf_paths_rec_fuel d obj :
  height obj <= d -> leaf_paths_rec d obj = leaf_paths obj.
Proof. intros Hd. by apply leaf_paths_rec_fuels. Qed.

Lemma elem_of_sorted_keys obj k :
  k ∈ sorted_keys obj <-> is_Some (dict_get (items obj) k).
Proof.
  unfold sorted_keys. rewrite merge_sort_Permutation. unfold keys.
  by rewrite dict_get_is_Some.
Qed.

Lemma leaf_paths_rec_nonempty d obj p : p ∈ leaf_paths_rec d obj -> p <> [].
Proof.
  destruct d as [|d]; simpl; [by intros ?%elem_of_nil|].
  intros (key & Hp & _)%list_elem_of_bind.
  destruct (dict_get (items obj) key) as [w|];
    [|apply list_elem_of_singleton in Hp as ->; discriminate].
  destruct (as_CfgNode w) as [sub|];
    [|apply list_elem_of_singleton in Hp as ->; discriminate].
  apply list_elem_of_fmap in Hp as (p' & -> & _). discriminate.
Qed.

Lemma join_dots_cons k p : p <> [] -> join_dots (k :: p) = dotted k (join_dots p).
Proof. by destruct p. Qed.

Lemma join_dots_leaf_paths d key sub :
  dotted key <$> (join_dots <$> leaf_paths_rec d sub)
  = join_dots <$> ((key ::.) <$> leaf_paths_rec d sub).
Proof.
  rewrite <- !list_fmap_compose. apply Forall_fmap_ext_1, Forall_forall.
  intros p Hp. simpl. symmetry. apply join_dots_cons.
  by eapply leaf_paths_rec_nonempty.
Qed.

(** On a node of the class [CfgNode] the assertion of [_find_all_keys]
    holds, here and in every recursive call, no key is missing, and the
    keys returned are the dotted paths of the flattened leaves. *)
Lemma _find_all_keys_rec_paths d : forall obj,
  class_of obj = D2go ->
  _find_all_keys_rec d obj = Ok (join_dots <$> leaf_paths_rec d obj).
Proof.
  induction d as [|d IH]; intros obj Hcls; [reflexivity|].
  cbn [_find_all_keys_rec leaf_paths_rec].
  rewrite (proj2 (is_CfgNode_class obj) Hcls). cbn [negb].
  assert (Hloop : forall ks ret,
    (forall k, k ∈ ks -> is_Some (dict_get (items obj) k)) ->
    fold_res
      (fun ret key =>
         match dict_get (items obj) key with
         | Some value =>
             match as_CfgNode value with
             | Some value =>
                 sub_keys ← _find_all_keys_rec d value;
                 Ok (ret ++ (dotted key <$> sub_keys))
             | None => Ok (ret ++ [key])
             end
         | None => Raise KeyError
         end) ret ks
    = Ok (ret ++ (join_dots <$>
            (key ← ks;
             match dict_get (items obj) key with
             | Some w =>
                 match as_CfgNode w with
                 | Some value => (key ::.) <$> leaf_paths_rec d value
                 | None => [[key]]
                 end
             | None => [[key]]
             end)))).
  { induction ks as [|key ks IHks]; intros ret Hks.
    { simpl. by rewrite app_nil_r. }
    destruct (Hks key) as [w Hw]; [left|].
    cbn [fold_res]. rewrite bind_cons, fmap_app, app_assoc, !Hw.
    destruct (as_CfgNode w) as [sub|] eqn:Hsub.
    - apply as_CfgNode_Some in Hsub as [-> Hsub].
      rewrite (IH sub Hsub). cbn [mbind res_bind].
      rewrite join_dots_leaf_paths.
      apply IHks. intros k Hk. apply Hks. by right.
    - apply IHks. intros k Hk. apply Hks. by right. }
  rewrite Hloop; [done|]. intros k. apply elem_of_sorted_keys.
Qed.

Lemma _find_all_keys_paths obj :
  class_of obj = D2go -> _find_all_keys obj = Ok (join_dots <$> leaf_paths obj).
Proof. apply _find_all_keys_rec_paths. Qed.

(** The assertion of line 23 fails on a node of the parent class. *)
Lemma _find_all_keys_parent_class obj :
  class_of obj = Detectron2 -> _find_all_keys obj = Raise AssertionError.
Proof.
  intros Hcls. unfold _find_all_keys.
  destruct (height obj) as [|d] eqn:Hd; [pose proof (height_pos obj); lia|].
  cbn [_find_all_keys_rec]. unfold is_CfgNode. simpl. by rewrite Hcls.
Qed.

Lemma _find_all_keys_Ok obj ks :
  _find_all_keys obj = Ok ks ->
  class_of obj = D2go /\ ks = join_dots <$> leaf_paths obj.
Proof.
  destruct (class_of obj) eqn:Hcls.
  - rewrite _find_all_keys_paths by done. by intros [= <-].
  - by rewrite _find_all_keys_parent_class.
Qed.


(** A flattened leaf is read by the lookup of its path, and is no
    instance of [CfgNode]. *)
Lemma is_flat_leaf_lookup obj p v :
  is_flat_leaf obj p v ->
  p <> [] /\ lookup_path (VCfg obj) p = Some v /\ is_CfgNode v = false.
Proof.
  revert obj. induction p as [|key p IH]; intros obj; simpl; [done|].
  destruct (dict_get (items obj) key) as [w|]; [|done].
  destruct (as_CfgNode w) as [sub|] eqn:Hsub.
  - apply as_CfgNode_Some in Hsub as [-> _].
    intros (_ & ? & ?)%IH. done.
  - intros [-> ->]. unfold is_CfgNode. by rewrite Hsub.
Qed.

Lemma is_flat_leaf_unique obj p v v' :
  is_flat_leaf obj p v -> is_flat_leaf obj p v' -> v = v'.
Proof.
  intros (_ & H & _)%is_flat_leaf_lookup (_ & H' & _)%is_flat_leaf_lookup.
  congruence.
Qed.

(** In a tree whose nodes all are of the class [CfgNode], the flattened
    leaves are the leaves. *)
Lemma is_flat_leaf_is_leaf obj p v :
  is_flat_leaf obj p v -> is_node v = false -> is_leaf obj p v.
Proof. intros (? & ? & _)%is_flat_leaf_lookup Hv. done. Qed.

Lemma leaf_paths_rec_elem d : forall obj p,
  height obj <= d ->
  p ∈ leaf_paths_rec d obj <-> exists v, is_flat_leaf obj p v.
Proof.
  induction d as [|d IH]; intros obj p Hd.
  { pose proof (height_pos obj). lia. }
  simpl. rewrite list_elem_of_bind. split.
  - intros (key & Hp & Hkey).
    destruct (dict_get (items obj) key) as [w|] eqn:Hget.
    2:{ apply elem_of_sorted_keys in Hkey. rewrite Hget in Hkey.
        by destruct Hkey. }
    destruct (as_CfgNode w) as [sub|] eqn:Hsub.
    + apply list_elem_of_fmap in Hp as (p' & -> & Hp').
      pose proof Hsub as Hsub'. apply as_CfgNode_Some in Hsub' as [-> _].
      apply IH in Hp' as [v Hv].
      * exists v. simpl. by rewrite Hget, Hsub.
      * apply height_child in Hget. lia.
    + apply list_elem_of_singleton in Hp as ->.
      exists w. simpl. by rewrite Hget, Hsub.
  - intros [v Hv]. destruct p as [|key p]; [done|]. simpl in Hv.
    exists key.
    destruct (dict_get (items obj) key) as [w|] eqn:Hget; [|done].
    split; [|apply elem_of_sorted_keys; by rewrite Hget].
    destruct (as_CfgNode w) as [sub|] eqn:Hsub.
    + apply list_elem_of_fmap. exists p. split; [done|].
      apply IH; [|by exists v].
      apply as_CfgNode_Some in Hsub as [-> _].
      apply height_child in Hget. lia.
    + destruct Hv as [-> _]. by apply list_elem_of_singleton.
Qed.

Lemma leaf_paths_elem obj p :
  p ∈ leaf_paths obj <-> exists v, is_flat_leaf obj p v.
Proof. by apply leaf_paths_rec_elem. Qed.

(** ** Dotted keys and key paths *)

Lemma split_on_no_dot k : no_dot k = true -> split_on dot k = [k].
Proof.
  induction k as [|c k IH]; simpl; [done|].
  intros [Hc Hk]%andb_true_iff. apply negb_true_iff in Hc. rewrite Hc.
  by rewrite (IH Hk).
Qed.

Lemma split_on_dotted k s :
  no_dot k = true -> split_on dot (dotted k s) = k :: split_on dot s.
Proof.
  unfold dotted. induction k as [|c k IH]; intros Hk.
  - reflexivity.
  - simpl in Hk. apply andb_true_iff in Hk as [Hc Hk].
    apply negb_true_iff in Hc.
    change (String c k +:+ String dot s) with (String c (k +:+ String dot s)).
    simpl. by rewrite Hc, (IH Hk).
Qed.

Lemma split_on_join_dots p :
  p <> [] -> Forall (fun k => no_dot k = true) p ->
  split_on dot (join_dots p) = p.
Proof.
  induction p as [|k p IH]; [done|]. intros _ [Hk Hp]%Forall_cons.
  destruct p as [|k' p]; [by apply split_on_no_dot|].
  rewrite join_dots_cons by done.
  rewrite split_on_dotted by done. f_equal. by apply IH.
Qed.

Lemma dot_free_child obj k v :
  dot_free obj = true -> dict_get (items obj) k = Some v ->
  no_dot k = true /\ forall sub, v = VCfg sub -> dot_free sub = true.
Proof.
  destruct obj as [cls imm its]. simpl. rewrite forallb_forall.
  intros Hall Hget%dict_get_Some_elem%list_elem_of_In.
  apply Hall in Hget. simpl in Hget. apply andb_true_iff in Hget as [Hk Hv].
  split; [done|]. by intros sub ->.
Qed.

Lemma is_flat_leaf_no_dot obj p v :
  dot_free obj = true -> is_flat_leaf obj p v ->
  Forall (fun k => no_dot k = true) p.
Proof.
  revert obj. induction p as [|key p IH]; intros obj Hdf Hleaf; [done|].
  simpl in Hleaf.
  destruct (dict_get (items obj) key) as [w|] eqn:Hget; [|done].
  destruct (dot_free_child _ _ _ Hdf Hget) as [Hk Hsub].
  constructor; [done|].
  destruct (as_CfgNode w) as [sub|] eqn:Hw.
  - apply as_CfgNode_Some in Hw as [-> _]. eapply IH; [|done]. by apply Hsub.
  - by destruct Hleaf as [-> _].
Qed.

Lemma lookup_path_get_value v p w :
  lookup_path v p = Some w -> _get_value_loop v p = Ok w.
Proof.
  revert v. induction p as [|k p IH]; intros v; simpl; [by intros [= ->]|].
  destruct v as [| | | | | |c]; try done. simpl.
  destruct (dict_get (items c) k); [apply IH|done].
Qed.

Lemma _get_value_leaf obj p v :
  dot_free obj = true -> is_flat_leaf obj p v ->
  _get_value obj (join_dots p) = Ok v.
Proof.
  intros Hdf Hleaf. unfold _get_value.
  rewrite split_on_join_dots;
    [|by apply is_flat_leaf_lookup in Hleaf as [? _]|by eapply is_flat_leaf_no_dot].
  apply lookup_path_get_value. by apply is_flat_leaf_lookup in Hleaf as (_ & ? & _).
Qed.

Lemma lookup_path_wf u p v :
  wf_value u = true -> lookup_path u p = Some v -> wf_value v = true.
Proof.
  revert u. induction p as [|k p IH]; intros u Hwf; simpl.
  - by intros [= <-].
  - destruct u as [| | | | | |c]; try done.
    destruct (dict_get (items c) k) as [w|] eqn:Hget; [|done].
    apply IH. by eapply wf_node_child.
Qed.

Lemma is_flat_leaf_wf obj p v :
  wf_node obj = true -> is_flat_leaf obj p v -> wf_value v = true.
Proof.
  intros Hwf (_ & Hp & _)%is_flat_leaf_lookup. by eapply lookup_path_wf.
Qed.

(** ** The traversal lists the leaves in ascending order *)

Lemma path_lt_asym p q : path_lt p q -> path_lt q p -> False.
Proof.
  revert q. induction p as [|a p IH]; intros [|b q]; simpl; try done.
  intros [[Hab Hba]|[-> Hpq]] [[Hba' Hab']|[Heq Hqp]]; try done.
  - subst. done.
  - by eapply IH.
Qed.

Lemma path_lt_irrefl p : ~ path_lt p p.
Proof. intros H. by eapply path_lt_asym. Qed.

#[global] Instance path_lt_trans : Transitive path_lt.
Proof.
  intros p. induction p as [|a p IH]; intros [|b q] [|c r]; simpl; try done.
  intros [Hab|[-> Hpq]] [Hbc|[-> Hqr]].
  - left. by etrans.
  - by left.
  - by left.
  - right. split; [done|]. by eapply IH.
Qed.

Lemma StronglySorted_strict_NoDup {A} (R : relation A) l :
  (forall x, ~ R x x) -> StronglySorted R l -> NoDup l.
Proof.
  intros Hirr. induction 1 as [|x l _ IH Hx]; constructor; [|done].
  intros Hin. rewrite Forall_forall in Hx. by apply (Hirr x), Hx.
Qed.

Lemma StronglySorted_bind {A B} (R : relation A) (S : relation B)
    (f : A -> list B) l :
  StronglySorted R l ->
  (forall x, x ∈ l -> StronglySorted S (f x)) ->
  (forall x y a b, R x y -> a ∈ f x -> b ∈ f y -> S a b) ->
  StronglySorted S (l ≫= f).
Proof.
  intros Hl Hf HRS. induction Hl as [|x l Hl IH Hx]; [constructor|].
  rewrite bind_cons. apply StronglySorted_app_2.
  - intros a b Ha (y & Hb & Hy)%list_elem_of_bind.
    rewrite Forall_forall in Hx. eauto.
  - apply Hf. left.
  - apply IH. intros y Hy. apply Hf. by right.
Qed.

Lemma sorted_keys_strict obj :
  wf_node obj = true -> StronglySorted (strict String.le) (sorted_keys obj).
Proof.
  intros Hwf%wf_node_NoDup.
  assert (Hnd : NoDup (sorted_keys obj)).
  { unfold sorted_keys. by rewrite merge_sort_Permutation. }
  assert (Hs : StronglySorted String.le (sorted_keys obj)).
  { apply StronglySorted_merge_sort; apply _. }
  clear Hwf. induction Hs as [|k l Hs IH Hk]; [constructor|].
  apply NoDup_cons in Hnd as [Hkl Hnd]. constructor; [by apply IH|].
  rewrite Forall_forall in Hk |- *. intros k' Hk'.
  apply strict_spec_alt. split; [by apply Hk|]. by intros ->.
Qed.

Lemma leaf_paths_rec_head d obj key p :
  p ∈ match dict_get (items obj) key with
      | Some w =>
          match as_CfgNode w with
          | Some value => (key ::.) <$> leaf_paths_rec d value
          | None => [[key]]
          end
      | None => [[key]]
      end ->
  exists p', p = key :: p'.
Proof.
  destruct (dict_get (items obj) key) as [w|];
    [|intros ->%list_elem_of_singleton; by eexists].
  destruct (as_CfgNode w) as [sub|];
    [|intros ->%list_elem_of_singleton; by eexists].
  intros (p' & -> & _)%list_elem_of_fmap. by eexists.
Qed.

Lemma leaf_paths_rec_sorted d obj :
  wf_node obj = true -> StronglySorted path_lt (leaf_paths_rec d obj).
Proof.
  revert obj. induction d as [|d IH]; intros obj Hwf; [constructor|]. simpl.
  eapply StronglySorted_bind; [by apply sorted_keys_strict| |].
  - intros key _.
    destruct (dict_get (items obj) key) as [w|] eqn:Hget;
      [|repeat constructor].
    destruct (as_CfgNode w) as [sub|] eqn:Hsub; [|repeat constructor].
    apply as_CfgNode_Some in Hsub as [-> _].
    eapply StronglySorted_fmap; [|apply IH; by eapply (wf_node_child obj)].
    intros p q Hpq. simpl. by right.
  - intros k1 k2 a b Hk (a' & ->)%leaf_paths_rec_head (b' & ->)%leaf_paths_rec_head.
    simpl. by left.
Qed.

Lemma leaf_paths_sorted obj :
  wf_node obj = true -> StronglySorted path_lt (leaf_paths obj).
Proof. apply leaf_paths_rec_sorted. Qed.

Lemma leaf_paths_ok obj p :
  dot_free obj = true -> p ∈ leaf_paths obj ->
  p <> [] /\ Forall (fun k => no_dot k = true) p.
Proof.
  intros Hdf [v Hv]%leaf_paths_elem.
  split; [by apply is_flat_leaf_lookup in Hv as [? _]|].
  by eapply is_flat_leaf_no_dot.
Qed.

(** Two trees with the same set of flattened keys have the same list of
    leaf paths, hence the same list of flattened keys. *)
Lemma leaf_paths_same_keys a b :
  wf_node a = true -> wf_node b = true ->
  dot_free a = true -> dot_free b = true ->
  (forall k, k ∈ join_dots <$> leaf_paths a <-> k ∈ join_dots <$> leaf_paths b) ->
  leaf_paths a = leaf_paths b.
Proof.
  intros Hwa Hwb Hda Hdb Hkeys.
  assert (Hinj : forall x y p, dot_free x = true -> dot_free y = true ->
            (forall k, k ∈ join_dots <$> leaf_paths x ->
                       k ∈ join_dots <$> leaf_paths y) ->
            p ∈ leaf_paths x -> p ∈ leaf_paths y).
  { intros x y p Hdx Hdy Hxy Hp.
    assert (Hk : join_dots p ∈ join_dots <$> leaf_paths y).
    { apply Hxy. apply list_elem_of_fmap. eauto. }
    apply list_elem_of_fmap in Hk as (q & Hpq & Hq).
    destruct (leaf_paths_ok x p Hdx Hp) as [Hp1 Hp2].
    destruct (leaf_paths_ok y q Hdy Hq) as [Hq1 Hq2].
    apply (f_equal (split_on dot)) in Hpq.
    rewrite !split_on_join_dots in Hpq by done. by subst. }
  apply (StronglySorted_unique_strong path_lt).
  - intros p q _ _ Hpq Hqp. by destruct (path_lt_asym p q).
  - by apply leaf_paths_sorted.
  - by apply leaf_paths_sorted.
  - apply NoDup_Permutation.
    + eapply StronglySorted_strict_NoDup;
        [apply path_lt_irrefl|by apply leaf_paths_sorted].
    + eapply StronglySorted_strict_NoDup;
        [apply path_lt_irrefl|by apply leaf_paths_sorted].
    + intros p. split; apply Hinj; try done; intros k; apply Hkeys.
Qed.

(** ** The rows of the diff table *)

Lemma diff_loop_leaves cfg original_cfg ps acc :
  dot_free cfg = true -> dot_free original_cfg = true ->
  (forall p, p ∈ ps ->
     (exists v, is_flat_leaf original_cfg p v)
     /\ (exists v, is_flat_leaf cfg p v)) ->
  diff_loop cfg original_cfg (join_dots <$> ps) acc =
  Ok (acc ++ omap (changed_row cfg original_cfg) ps).
Proof.
  intros Hdc Hdo. revert acc.
  induction ps as [|p ps IH]; intros acc Hps.
  - simpl. by rewrite app_nil_r.
  - destruct (Hps p) as [[vo Hvo] [vn Hvn]]; [left|].
    rewrite fmap_cons. simpl.
    rewrite (_get_value_leaf _ _ _ Hdo Hvo). simpl.
    rewrite (_get_value_leaf _ _ _ Hdc Hvn). simpl.
    rewrite IH by (intros q Hq; apply Hps; by right).
    unfold changed_row.
    apply is_flat_leaf_lookup in Hvo as (_ & -> & _).
    apply is_flat_leaf_lookup in Hvn as (_ & -> & _).
    destruct (negb (py_eq vo vn)); [|done].
    by rewrite <- app_assoc.
Qed.

Lemma changed_row_Some cfg original_cfg p k old_value new_value :
  changed_row cfg original_cfg p = Some (k, old_value, new_value) <->
  k = join_dots p
  /\ lookup_path (VCfg original_cfg) p = Some old_value
  /\ lookup_path (VCfg cfg) p = Some new_value
  /\ py_eq old_value new_value = false.
Proof.
  unfold changed_row.
  destruct (lookup_path (VCfg original_cfg) p) as [vo|];
    [|split; [done|by intros (_ & ? & _)]].
  destruct (lookup_path (VCfg cfg) p) as [vn|];
    [|split; [done|by intros (_ & _ & ? & _)]].
  destruct (py_eq vo vn) eqn:Heq; simpl.
  - split; [done|]. intros (_ & [= ->] & [= ->] & ?). congruence.
  - split.
    + by intros [= <- <- <-].
    + by intros (-> & [= ->] & [= ->] & _).
Qed.

Lemma changed_rows_sorted cfg original_cfg ps :
  StronglySorted path_lt ps ->
  Forall (fun p => p <> [] /\ Forall (fun k => no_dot k = true) p) ps ->
  StronglySorted dotted_lt ((omap (changed_row cfg original_cfg) ps).*1.*1).
Proof.
  induction 1 as [|p ps Hs IH Hp]; intros Hok; [constructor|].
  apply Forall_cons in Hok as [[Hp1 Hp2] Hok]. simpl.
  destruct (changed_row cfg original_cfg p) as [[[k vo] vn]|] eqn:Hrow;
    [|by apply IH].
  apply changed_row_Some in Hrow as (-> & _).
  rewrite !fmap_cons. simpl. constructor; [by apply IH|].
  apply Forall_forall. intros k Hk.
  apply list_elem_of_fmap in Hk as ([k' vn'] & -> & Hk).
  apply list_elem_of_fmap in Hk as ([[k'' vo'] vn''] & [= <- <-] & Hk).
  apply list_elem_of_omap in Hk as (q & Hq & Hrow).
  apply changed_row_Some in Hrow as (-> & _). simpl.
  rewrite Forall_forall in Hp, Hok.
  destruct (Hok q Hq) as [Hq1 Hq2].
  unfold dotted_lt. rewrite !split_on_join_dots by done. by apply Hp.
Qed.

Lemma diff_table_same_keys cfg original_cfg :
  class_of cfg = D2go -> class_of original_cfg = D2go ->
  wf_node cfg = true -> wf_node original_cfg = true ->
  dot_free cfg = true -> dot_free original_cfg = true ->
  (forall k, k ∈ join_dots <$> leaf_paths cfg
             <-> k ∈ join_dots <$> leaf_paths original_cfg) ->
  diff_table cfg original_cfg =
  Ok (omap (changed_row cfg original_cfg) (leaf_paths cfg)).
Proof.
  intros Hcc Hco Hwc Hwo Hdc Hdo Hkeys.
  pose proof (leaf_paths_same_keys _ _ Hwc Hwo Hdc Hdo Hkeys) as Hlp.
  unfold diff_table. rewrite !_find_all_keys_paths by done.
  cbn [mbind res_bind].
  rewrite bool_decide_eq_true_2 by (by rewrite Hlp).
  apply diff_loop_leaves; [done..|].
  intros p Hp. split; apply leaf_paths_elem; [by rewrite <- Hlp|done].
Qed.

(** ** Facts about the state monad and the attribute primitives *)

Lemma M_bind_unfold {S A B} (m : M S A) (k : A -> M S B) st :
  (m ≫= k) st =
  match m st with
  | (Ok a, st') => k a st'
  | (Raise e, st') => (Raise e, st')
  end.
Proof. reflexivity. Qed.

Lemma M_bind_Ok_inv {S A B} (m : M S A) (k : A -> M S B) st b st' :
  (m ≫= k) st = (Ok b, st') ->
  exists a st1, m st = (Ok a, st1) /\ k a st1 = (Ok b, st').
Proof.
  rewrite M_bind_unfold. destruct (m st) as [[a|e] st1]; [eauto|done].
Qed.

Lemma dict_get_set {V} (d : list (string * V)) k v k' :
  dict_get (dict_set d k v) k' =
  if String.eqb k k' then Some v else dict_get d k'.
Proof.
  induction d as [|[k0 v0] d IH]; simpl.
  - by destruct (String.eqb k k').
  - destruct (String.eqb_spec k0 k) as [->|Hne]; simpl.
    + by destruct (String.eqb k k').
    + rewrite IH. destruct (String.eqb_spec k0 k') as [->|Hne'];
        [|done].
      assert (String.eqb k k' = false) as ->; [|done].
      apply String.eqb_neq. congruence.
Qed.

Lemma _immutable_items b c :
  items (_immutable b c) = (fun kv => (kv.1, with_flag b kv.2)) <$> items c.
Proof.
  destruct c as [cls imm its]. simpl. induction its as [|[k v] its IH]; [done|].
  rewrite fmap_cons, <- IH. done.
Qed.

Lemma dict_get_fmap {V W} (f : V -> W) (d : list (string * V)) k :
  dict_get ((fun kv => (kv.1, f kv.2)) <$> d) k = f <$> dict_get d k.
Proof.
  induction d as [|[k0 v0] d IH]; [done|]. rewrite fmap_cons. simpl.
  by destruct (String.eqb k0 k).
Qed.

Lemma is_frozen_immutable b c : is_frozen (_immutable b c) = b.
Proof. by destruct c. Qed.

Lemma lookup_path_immutable b c p :
  lookup_path (VCfg (_immutable b c)) p = with_flag b <$> lookup_path (VCfg c) p.
Proof.
  revert c. induction p as [|k p IH]; intros c; [done|]. simpl.
  rewrite _immutable_items, dict_get_fmap.
  destruct (dict_get (items c) k) as [w|]; [|done]. simpl.
  destruct w as [| | | | | |sub]; try (by destruct p). apply IH.
Qed.

(** Unfolds the operations of the monad [M] applied to a state. *)
Ltac run_M :=
  repeat (progress (
    cbv beta delta [mbind M_bind mret M_ret gets lift modify py_assert];
    simpl)).

(** ** Properties of [auto_scale_world_size] *)

Section AutoScaleFacts.
Variable registry : list (string * scaling_method).
Variable tabulate : list diff_row -> string.

Lemma read_solver_eq name cfg tr :
  read_solver name {| scaled_cfg := cfg; trace := tr |} =
  (solver ← py_getattr (VCfg cfg) "SOLVER"; py_getattr solver name,
   {| scaled_cfg := cfg; trace := tr |}).
Proof. reflexivity. Qed.

Lemma auto_scale_world_size_eq new_world_size cfg tr old_world_size :
  reference_world_size cfg = Ok old_world_size ->
  auto_scale_world_size registry tabulate new_world_size
    {| scaled_cfg := cfg; trace := tr |} =
  if no_scaling_needed old_world_size new_world_size
  then (Ok (VCfg cfg), {| scaled_cfg := cfg; trace := tr |})
  else (_ ← run_scaling_methods registry new_world_size;
        finish_scaling tabulate new_world_size (is_frozen cfg) cfg)
         {| scaled_cfg := defrost cfg; trace := tr |}.
Proof.
  intros Hold. unfold auto_scale_world_size.
  rewrite M_bind_unfold, read_solver_eq.
  unfold reference_world_size in Hold. rewrite Hold.
  unfold no_scaling_needed.
  by destruct (py_eq old_world_size (VInt 0)
               || py_eq old_world_size (VInt new_world_size)).
Qed.

(** C6: when the reference world size is zero or equal to the new
    world size, [auto_scale_world_size] returns the config it was
    given, leaves it as it is and calls no scaling method: the trace of
    the run is empty. *)
Theorem auto_scale_noop cfg new_world_size (r : Z) :
  reference_world_size cfg = Ok (VInt r) ->
  r = 0%Z \/ r = new_world_size ->
  auto_scale_world_size registry tabulate new_world_size
    {| scaled_cfg := cfg; trace := [] |} =
  (Ok (VCfg cfg), {| scaled_cfg := cfg; trace := [] |}).
Proof.
  intros Hold Hr. rewrite (auto_scale_world_size_eq _ _ _ _ Hold).
  unfold no_scaling_needed. simpl.
  destruct Hr as [-> | ->]; [done|].
  by rewrite Z.eqb_refl, orb_true_r.
Qed.

(** The state in which [finish_scaling] leaves the config when the
    assertion of lines 211-213 holds, whatever the diff table does. *)
Lemma finish_scaling_state new_world_size (frozen : bool) original_cfg
    cfg tr solver old_world_size :
  py_eq old_world_size old_world_size = true ->
  is_frozen cfg = false ->
  dict_get (items cfg) "SOLVER" = Some (VCfg solver) ->
  is_frozen solver = false ->
  dict_get (items solver) "REFERENCE_WORLD_SIZE" = Some old_world_size ->
  let cfg' :=
    Node (class_of cfg) false
      (dict_set (items cfg) "SOLVER"
         (VCfg (Node (class_of solver) false
                  (dict_set (items solver) "REFERENCE_WORLD_SIZE"
                     (VInt new_world_size))))) in
  let final := if frozen then freeze cfg' else cfg' in
  exists r tr',
    finish_scaling tabulate new_world_size frozen original_cfg
      {| scaled_cfg := cfg; trace := tr |} =
    (r, {| scaled_cfg := final; trace := tr' |}).
Proof.
  intros Heq Hcfg Hsolver Hfs Href cfg' final.
  unfold finish_scaling.
  rewrite M_bind_unfold, read_solver_eq. simpl. rewrite Hsolver. simpl.
  rewrite Href.
  rewrite M_bind_unfold, read_solver_eq. simpl. rewrite Hsolver. simpl.
  rewrite Href.
  rewrite Heq. simpl.
  destruct cfg as [cls imm its]. destruct solver as [clss imms sits].
  simpl in Hcfg, Hfs, Hsolver, Href. subst imm imms.
  unfold write_solver, update_cfg, emit, get_cfg_diff_table. run_M.
  rewrite Hsolver. run_M.
  destruct frozen; run_M;
    (destruct (diff_table _ original_cfg) as [t|e]; run_M;
     eexists _, _; reflexivity).
Qed.

(** The assertion of lines 211-213 compares the field with itself: it
    fails exactly when the value is not equal to itself, and the run
    stops there. *)
Lemma finish_scaling_assert new_world_size (frozen : bool) original_cfg
    cfg tr solver v :
  py_eq v v = false ->
  dict_get (items cfg) "SOLVER" = Some (VCfg solver) ->
  dict_get (items solver) "REFERENCE_WORLD_SIZE" = Some v ->
  finish_scaling tabulate new_world_size frozen original_cfg
    {| scaled_cfg := cfg; trace := tr |}
  = (Raise AssertionError, {| scaled_cfg := cfg; trace := tr |}).
Proof.
  intros Hne Hsolver Href. unfold finish_scaling.
  rewrite M_bind_unfold, read_solver_eq. simpl. rewrite Hsolver. simpl.
  rewrite Href.
  rewrite M_bind_unfold, read_solver_eq. simpl. rewrite Hsolver. simpl.
  rewrite Href.
  by rewrite Hne.
Qed.

(** C7 (amended): when a run reaches the scaling branch and its
    scaling methods all complete, leaving the config unfrozen and
    [SOLVER] an unfrozen node that holds a value [v1] in
    [REFERENCE_WORLD_SIZE].  If [v1 == v1], which holds of every value
    but a float that is NaN, the final config has
    [SOLVER.REFERENCE_WORLD_SIZE] equal to the new world size and is
    frozen exactly when it was frozen on entry.  If [v1] is not equal to
    itself, the assertion of lines 211-213 fails: the run raises
    [AssertionError] and leaves the config as the scaling methods left
    it, not updated and not frozen. *)
Theorem auto_scale_updates_reference cfg new_world_size old_world_size
    st1 solver1 v1 :
  reference_world_size cfg = Ok old_world_size ->
  no_scaling_needed old_world_size new_world_size = false ->
  run_scaling_methods registry new_world_size
    {| scaled_cfg := defrost cfg; trace := [] |} = (Ok tt, st1) ->
  is_frozen (scaled_cfg st1) = false ->
  dict_get (items (scaled_cfg st1)) "SOLVER" = Some (VCfg solver1) ->
  is_frozen solver1 = false ->
  dict_get (items solver1) "REFERENCE_WORLD_SIZE" = Some v1 ->
  let run :=
    auto_scale_world_size registry tabulate new_world_size
      {| scaled_cfg := cfg; trace := [] |} in
  let final := scaled_cfg run.2 in
  (py_eq v1 v1 = true ->
   lookup_path (VCfg final) ["SOLVER"; "REFERENCE_WORLD_SIZE"]
     = Some (VInt new_world_size)
   /\ is_frozen final = is_frozen cfg)
  /\ (py_eq v1 v1 = false -> run = (Raise AssertionError, st1)).
Proof.
  intros Hold Hno Hrun Hfr Hsolver Hfs Href.
  rewrite (auto_scale_world_size_eq _ _ _ _ Hold), Hno.
  rewrite M_bind_unfold, Hrun. destruct st1 as [cfg1 tr1].
  simpl in Hfr, Hsolver. cbv zeta. split.
  - intros Heq.
    destruct (finish_scaling_state new_world_size (is_frozen cfg) cfg
                cfg1 tr1 solver1 v1 Heq Hfr Hsolver Hfs Href)
      as (r & tr' & ->).
    unfold snd, scaled_cfg.
    assert (Hset : forall c imm,
      lookup_path
        (VCfg (Node c imm
           (dict_set (items cfg1) "SOLVER"
              (VCfg (Node (class_of solver1) false
                 (dict_set (items solver1) "REFERENCE_WORLD_SIZE"
                    (VInt new_world_size)))))))
        ["SOLVER"; "REFERENCE_WORLD_SIZE"] = Some (VInt new_world_size)).
    { intros c imm. simpl. rewrite dict_get_set. simpl. by rewrite dict_get_set. }
    destruct (is_frozen cfg).
    + split; [|apply is_frozen_immutable].
      unfold freeze. by rewrite lookup_path_immutable, Hset.
    + split; [apply Hset|done].
  - intros Hne. by apply (finish_scaling_assert _ _ _ _ _ solver1 v1).
Qed.

(** C1 (the code at fault): in the scaling branch a run that returns
    returns [None], not the scaled config. *)
Theorem auto_scale_scaled_returns_None cfg new_world_size tr
    old_world_size v st' :
  reference_world_size cfg = Ok old_world_size ->
  no_scaling_needed old_world_size new_world_size = false ->
  auto_scale_world_size registry tabulate new_world_size
    {| scaled_cfg := cfg; trace := tr |} = (Ok v, st') ->
  v = VNone.
Proof.
  intros Hold Hno. rewrite (auto_scale_world_size_eq _ _ _ _ Hold), Hno.
  intros (_ & st1 & _ & H)%M_bind_Ok_inv. unfold finish_scaling in H.
  repeat (apply M_bind_Ok_inv in H as (? & ? & _ & H)).
  by injection H as <- _.
Qed.
End AutoScaleFacts.

Lemma auto_scale_noop_witness :
  auto_scale_world_size sample_registry sample_tabulate 8
    {| scaled_cfg := sample_cfg true ["scale_lr"]; trace := [] |} =
  (Ok (VCfg (sample_cfg true ["scale_lr"])),
   {| scaled_cfg := sample_cfg true ["scale_lr"]; trace := [] |}).
Proof.
  apply (auto_scale_noop sample_registry sample_tabulate
           (sample_cfg true ["scale_lr"]) 8 8);
    [reflexivity | right; reflexivity].
Defined.

Lemma auto_scale_updates_reference_witness :
  let st1 :=
    (run_scaling_methods sample_registry 16
       {| scaled_cfg := defrost (sample_cfg true ["scale_lr"]);
          trace := [] |}).2 in
  let run :=
    auto_scale_world_size sample_registry sample_tabulate 16
      {| scaled_cfg := sample_cfg true ["scale_lr"]; trace := [] |} in
  let final := scaled_cfg run.2 in
  (py_eq (VInt 8) (VInt 8) = true ->
   lookup_path (VCfg final) ["SOLVER"; "REFERENCE_WORLD_SIZE"]
     = Some (VInt 16)
   /\ is_frozen final = is_frozen (sample_cfg true ["scale_lr"]))
  /\ (py_eq (VInt 8) (VInt 8) = false ->
      run = (Raise AssertionError, st1)).
Proof.
  apply (auto_scale_updates_reference sample_registry sample_tabulate
           (sample_cfg true ["scale_lr"]) 16 (VInt 8)
           (run_scaling_methods sample_registry 16
              {| scaled_cfg := defrost (sample_cfg true ["scale_lr"]);
                 trace := [] |}).2
           (Node D2go false
              [("REFERENCE_WORLD_SIZE", VInt 8);
               ("AUTO_SCALING_METHODS", VList [VStr "scale_lr"]);
               ("BASE_LR", VInt 20)])
           (VInt 8));
    [reflexivity | reflexivity | vm_compute; reflexivity
    | reflexivity | reflexivity | reflexivity | reflexivity].
Defined.

(** A scaling method that leaves a NaN in [SOLVER.REFERENCE_WORLD_SIZE]:
    the assertion that compares the field with itself fails, the field
    is not updated, and the config, frozen on entry, is left
    defrosted. *)
Example auto_scale_nan_reference :
  let cfg := sample_cfg true ["set_reference_nan"] in
  let run := auto_scale_world_size sample_registry sample_tabulate 16
               {| scaled_cfg := cfg; trace := [] |} in
  run.1 = Raise AssertionError
  /\ lookup_path (VCfg (scaled_cfg run.2)) ["SOLVER"; "REFERENCE_WORLD_SIZE"]
     = Some nan
  /\ is_frozen cfg = true
  /\ is_frozen (scaled_cfg run.2) = false.
Proof. vm_compute. repeat split. Qed.

Lemma auto_scale_scaled_returns_None_witness :
  exists st',
    auto_scale_world_size sample_registry sample_tabulate 16
      {| scaled_cfg := sample_cfg false ["scale_lr"]; trace := [] |}
    = (Ok VNone, st').
Proof.
  destruct (auto_scale_world_size sample_registry sample_tabulate 16
              {| scaled_cfg := sample_cfg false ["scale_lr"]; trace := [] |})
    as [r st'] eqn:Hrun.
  exists st'. f_equal.
  assert (Hok : exists v, r = Ok v) by (vm_compute in Hrun; injection Hrun as <- _; eauto).
  destruct Hok as [v ->]. f_equal.
  exact (auto_scale_scaled_returns_None sample_registry sample_tabulate
           (sample_cfg false ["scale_lr"]) 16 [] (VInt 8) v st'
           eq_refl eq_refl Hrun).
Defined.

(** C7 (as stated, refuted): a scaling method that freezes the config
    completes, and the run then fails on the update of the reference
    world size: the field keeps the old value, and the config is frozen
    on exit although it was not frozen on entry. *)
Lemma auto_scale_frozen_by_method :
  let cfg := sample_cfg false ["freeze_cfg"] in
  let st := auto_scale_world_size sample_registry sample_tabulate 16
              {| scaled_cfg := cfg; trace := [] |} in
  run_scaling_methods sample_registry 16
    {| scaled_cfg := defrost cfg; trace := [] |}
  = (Ok tt, {| scaled_cfg := freeze cfg;
               trace := [LogApplying (VStr "freeze_cfg");
                         Invoked "freeze_cfg"] |})
  /\ st.1 = Raise AttributeError
  /\ lookup_path (VCfg (scaled_cfg st.2)) ["SOLVER"; "REFERENCE_WORLD_SIZE"]
     = Some (VInt 8)
  /\ is_frozen cfg = false
  /\ is_frozen (scaled_cfg st.2) = true.
Proof. vm_compute. repeat split. Qed.

(** C2 (the code at fault): the method [set_reference] changes
    [SOLVER.REFERENCE_WORLD_SIZE] from 8 to 4; the assertion that follows
    the loop compares the field with itself, raises nothing, and the run
    goes on to store the new world size. *)
Theorem auto_scale_misses_reference_change :
  let cfg := sample_cfg false ["set_reference"] in
  (exists cfg1,
     set_solver_field "REFERENCE_WORLD_SIZE" (VInt 4) (defrost cfg) 16%Z
     = (Ok VNone, cfg1)
     /\ reference_world_size cfg = Ok (VInt 8)
     /\ reference_world_size cfg1 = Ok (VInt 4))
  /\ auto_scale_world_size sample_registry sample_tabulate 16
       {| scaled_cfg := cfg; trace := [] |}
     = (Ok VNone,
        {| scaled_cfg :=
             Node D2go false
               [("SOLVER",
                 VCfg (Node D2go false
                         [("REFERENCE_WORLD_SIZE", VInt 16);
                          ("AUTO_SCALING_METHODS",
                           VList [VStr "set_reference"]);
                          ("BASE_LR", VInt 10)]))];
           trace := [LogApplying (VStr "set_reference");
                     Invoked "set_reference";
                     LogAutoScaled "SOLVER.REFERENCE_WORLD_SIZE"] |}).
Proof. split; [eexists; repeat split|]; vm_compute; reflexivity. Qed.

(** ** Properties of [merge_from_other_cfg] *)



Lemma get_chain_lookup other :
  match lookup_path (VCfg other) ARCH_DEF_path with
  | Some v =>
      (model ← get_or_empty (VCfg other) "MODEL";
       fbnet_v2 ← get_or_empty model "FBNET_V2";
       get_or_None fbnet_v2 "ARCH_DEF") = Ok v
  | None =>
      (model ← get_or_empty (VCfg other) "MODEL";
       fbnet_v2 ← get_or_empty model "FBNET_V2";
       get_or_None fbnet_v2 "ARCH_DEF") = Ok VNone
      \/ (model ← get_or_empty (VCfg other) "MODEL";
          fbnet_v2 ← get_or_empty model "FBNET_V2";
          get_or_None fbnet_v2 "ARCH_DEF") = Raise AttributeError
  end.
Proof.
  unfold ARCH_DEF_path. simpl.
  destruct (dict_get (items other) "MODEL") as [model|]; [|by left].
  destruct model as [| | | | | |m]; try (by right). simpl.
  destruct (dict_get (items m) "FBNET_V2") as [fb|]; [|by left].
  destruct fb as [| | | | | |f]; try (by right). simpl.
  destruct (dict_get (items f) "ARCH_DEF"); [done|by left].
Qed.

Lemma py_eq_empty_str v : py_eq v (VStr "") = true <-> v = VStr "".
Proof.
  destruct v as [| | | |s| |[cls imm its]]; simpl; try (split; [done|discriminate]).
  rewrite String.eqb_eq. split; [by intros ->|by intros [= ->]].
Qed.

Section MergeFacts.
Variable super_merge : CfgNode -> M CfgNode value.

Lemma merge_from_other_cfg_eq self other log :
  merge_from_other_cfg super_merge
    {| self_cfg := self; other_cfg := other; merge_log := log |} =
  match (model ← get_or_empty (VCfg other) "MODEL";
         fbnet_v2 ← get_or_empty model "FBNET_V2";
         get_or_None fbnet_v2 "ARCH_DEF") with
  | Raise e =>
      (Raise e, {| self_cfg := self; other_cfg := other; merge_log := log |})
  | Ok arch_def =>
      if py_eq arch_def (VStr "")
      then
        match setattr_path (VCfg other) ["MODEL"; "FBNET_V2"] "ARCH_DEF"
                (VList []) with
        | Ok (VCfg c) =>
            run_super_merge super_merge
              {| self_cfg := self; other_cfg := c;
                 merge_log := log ++ [LogArchDefChanged] |}
        | Ok _ =>
            (Raise AttributeError,
             {| self_cfg := self; other_cfg := other;
                merge_log := log ++ [LogArchDefChanged] |})
        | Raise e =>
            (Raise e,
             {| self_cfg := self; other_cfg := other;
                merge_log := log ++ [LogArchDefChanged] |})
        end
      else
        run_super_merge super_merge
          {| self_cfg := self; other_cfg := other; merge_log := log |}
  end.
Proof.
  unfold merge_from_other_cfg.
  rewrite M_bind_unfold. cbn [gets other_cfg].
  rewrite M_bind_unfold. unfold lift at 1.
  destruct (get_or_empty (VCfg other) "MODEL") as [model|e]; [|done].
  rewrite M_bind_unfold. unfold lift at 1. cbn [mbind res_bind].
  destruct (get_or_empty model "FBNET_V2") as [fb|e]; [|done].
  rewrite M_bind_unfold. unfold lift at 1. cbn [mbind res_bind].
  destruct (get_or_None fb "ARCH_DEF") as [arch|e]; [|done].
  rewrite M_bind_unfold.
  destruct (py_eq arch (VStr "")); [|done].
  rewrite M_bind_unfold. cbn [modify self_cfg other_cfg merge_log].
  rewrite M_bind_unfold. unfold lift at 1.
  destruct (setattr_path _ _ _ _) as [[| | | | | |c]|e]; done.
Qed.

(** What the fix-up step does to an argument that holds the old
    default in a node that is not frozen. *)
Lemma merge_from_other_cfg_rewrites self other log :
  (forall fb, lookup_path (VCfg other) ["MODEL"; "FBNET_V2"] = Some (VCfg fb) ->
              is_frozen fb = false) ->
  lookup_path (VCfg other) ARCH_DEF_path = Some (VStr "") ->
  exists other',
    setattr_path (VCfg other) ["MODEL"; "FBNET_V2"] "ARCH_DEF" (VList [])
      = Ok (VCfg other')
    /\ merge_from_other_cfg super_merge
        {| self_cfg := self; other_cfg := other; merge_log := log |}
      = run_super_merge super_merge
          {| self_cfg := self; other_cfg := other';
             merge_log := log ++ [LogArchDefChanged] |}
    /\ lookup_path (VCfg other') ARCH_DEF_path = Some (VList []).
Proof.
  intros Hfr Hold. rewrite merge_from_other_cfg_eq.
  pose proof (get_chain_lookup other) as Hchain. rewrite Hold in Hchain.
  rewrite Hchain. simpl.
  unfold ARCH_DEF_path in Hold. simpl in Hold, Hfr.
  destruct other as [cls imm its]. simpl in *.
  destruct (dict_get its "MODEL") as [[| | | | | |[clsm immm mits]]|]; try done.
  simpl in *.
  destruct (dict_get mits "FBNET_V2") as [[| | | | | |[clsf immf fits]]|] eqn:Hfb;
    try done.
  simpl in *. specialize (Hfr _ eq_refl). simpl in Hfr. subst immf.
  eexists. split; [reflexivity|]. split; [reflexivity|].
  unfold ARCH_DEF_path. simpl.
  rewrite dict_get_set. simpl. rewrite dict_get_set. simpl.
  by rewrite dict_get_set.
Qed.
End MergeFacts.

Section MergeClaims.
Variable super_merge : CfgNode -> M CfgNode value.


End MergeClaims.





(** ** Properties of the patched loaders, of [load_yaml_with_base] and
    of [merge_from_file] *)

Lemma dict_set_set {V} (d : list (string * V)) k v w :
  dict_set (dict_set d k v) k w = dict_set d k w.
Proof.
  induction d as [|[k0 v0] d IH]; simpl; [by rewrite String.eqb_refl|].
  destruct (String.eqb_spec k0 k) as [->|Hne]; simpl.
  - by rewrite String.eqb_refl.
  - destruct (String.eqb_spec k0 k) as [->|_]; [done|]. by rewrite IH.
Qed.

Section RerouteFacts.
Context {File : Type}.
Variable reroute_config_path : value -> res value.
Variable parent_load_yaml_with_base :
  @yaml_module File -> value -> M load_state yaml_doc.
Variable super_merge_from_file :
  (@yaml_module File -> value -> M load_state yaml_doc) ->
  @yaml_module File -> value -> M load_state value.

(** Lines 161-163 on a mapping. *)
Lemma reroute_base_mapping d st :
  reroute_base reroute_config_path (YMapping d) st =
  match dict_get d BASE_KEY with
  | None => (Ok (YMapping d), st)
  | Some base =>
      let st1 := {| target_cfg := target_cfg st;
                    reroute_calls := reroute_calls st ++ [base] |} in
      match reroute_config_path base with
      | Ok base' => (Ok (YMapping (dict_set d BASE_KEY base')), st1)
      | Raise e => (Raise e, st1)
      end
  end.
Proof.
  unfold reroute_base, call_reroute. run_M.
  destruct (dict_get d BASE_KEY) as [base|]; run_M; [|done].
  by destruct (reroute_config_path base).
Qed.

(** Lines 161-163 on a value that is no mapping: the collaborator is not
    called. *)
Lemma reroute_base_other v st :
  is_node v = false ->
  (reroute_base reroute_config_path (YOther v) st).2 = st
  /\ ((reroute_base reroute_config_path (YOther v) st).1 = Ok (YOther v)
      \/ (reroute_base reroute_config_path (YOther v) st).1 = Raise TypeError).
Proof.
  intros Hv. unfold reroute_base.
  destruct v as [| | | |s|l|]; try done; run_M; try (by split; [|right]).
  - destruct (is_substring BASE_KEY s); run_M; by split; [|auto].
  - destruct (existsb _ l); run_M; by split; [|auto].
Qed.

Lemma reroute_base_once (load : @loader File) :
  reroutes_base_once reroute_config_path load
    (fun f => cfg ← load f; reroute_base reroute_config_path cfg).
Proof.
  intros f st. rewrite M_bind_unfold.
  destruct (load f st) as [[[d|v]|e] st0]; [| |done].
  - rewrite reroute_base_mapping.
    destruct (dict_get d BASE_KEY) as [base|]; [|done]. cbv zeta.
    destruct (reroute_config_path base) as [base'|e]; [|done].
    repeat split. eexists. split; [reflexivity|].
    split; [by rewrite dict_get_set|].
    intros k Hk. rewrite dict_get_set.
    assert (String.eqb BASE_KEY k = false) as ->; [|done].
    apply String.eqb_neq. congruence.
  - apply reroute_base_other.
Qed.

(** Under two layers of the patch the collaborator is called twice for
    a mapping that holds the reserved key, the second time with the
    result of the first call. *)
Lemma patched_twice (yaml : @yaml_module File) f st d st0 base base1 base2 :
  safe_load yaml f st = (Ok (YMapping d), st0) ->
  dict_get d BASE_KEY = Some base ->
  reroute_config_path base = Ok base1 ->
  reroute_config_path base1 = Ok base2 ->
  safe_load (patched reroute_config_path (patched reroute_config_path yaml)) f st
  = (Ok (YMapping (dict_set d BASE_KEY base2)),
     {| target_cfg := target_cfg st0;
        reroute_calls := reroute_calls st0 ++ [base; base1] |}).
Proof.
  intros Hload Hbase H1 H2.
  cbn [patched safe_load]. unfold mock_safe_load at 1.
  rewrite M_bind_unfold. unfold mock_safe_load at 1.
  rewrite M_bind_unfold, Hload, reroute_base_mapping, Hbase. cbv zeta.
  rewrite H1, reroute_base_mapping, dict_get_set, String.eqb_refl. cbv zeta.
  rewrite H2. cbn [target_cfg reroute_calls]. f_equal.
  - by rewrite dict_set_set.
  - by rewrite <- app_assoc.
Qed.

(** C4 (amended): [merge_from_file] passes its file name through the
    rerouting collaborator and runs the inherited [merge_from_file] on
    the result inside one more layer of the patch, handing it the
    [load_yaml_with_base] of lines 75-78, which runs the inherited
    loader inside one more layer again.  Each layer of the patch passes
    the value of [_BASE_] of every mapping parsed under it to the
    collaborator once, as a whole, and stores the result under
    [_BASE_]: a single path is rerouted this way, the elements of a
    sequence are not passed to the collaborator one by one.  Under two
    layers the collaborator is called twice, the second time with the
    result of the first call. *)
Theorem reroute_applied_to_whole_value (yaml : @yaml_module File) :
  (forall cfg_filename st,
     merge_from_file reroute_config_path parent_load_yaml_with_base
       super_merge_from_file yaml cfg_filename st =
     let st1 := {| target_cfg := target_cfg st;
                   reroute_calls := reroute_calls st ++ [cfg_filename] |} in
     match reroute_config_path cfg_filename with
     | Ok rerouted =>
         super_merge_from_file
           (load_yaml_with_base reroute_config_path parent_load_yaml_with_base)
           (patched reroute_config_path yaml) rerouted st1
     | Raise e => (Raise e, st1)
     end)
  /\ (forall filename,
        load_yaml_with_base reroute_config_path parent_load_yaml_with_base
          yaml filename
        = parent_load_yaml_with_base (patched reroute_config_path yaml) filename)
  /\ reroutes_base_once reroute_config_path (safe_load yaml)
       (safe_load (patched reroute_config_path yaml))
  /\ reroutes_base_once reroute_config_path (unsafe_load yaml)
       (unsafe_load (patched reroute_config_path yaml))
  /\ (forall f st d st0 base base1 base2,
        safe_load yaml f st = (Ok (YMapping d), st0) ->
        dict_get d BASE_KEY = Some base ->
        reroute_config_path base = Ok base1 ->
        reroute_config_path base1 = Ok base2 ->
        safe_load
          (patched reroute_config_path (patched reroute_config_path yaml)) f st
        = (Ok (YMapping (dict_set d BASE_KEY base2)),
           {| target_cfg := target_cfg st0;
              reroute_calls := reroute_calls st0 ++ [base; base1] |})).
Proof.
  split; [|split; [done|split; [|split]]].
  - intros cfg_filename st. unfold merge_from_file, call_reroute.
    rewrite !M_bind_unfold. cbn [modify lift target_cfg reroute_calls].
    by destruct (reroute_config_path cfg_filename).
  - apply reroute_base_once.
  - apply reroute_base_once.
  - apply patched_twice.
Qed.
End RerouteFacts.

(** C4 (as stated, refuted): for a document whose [_BASE_] is a
    sequence of paths, the collaborator is called once, with the
    sequence; no element of the sequence is passed to it, and with a
    collaborator that expects a path the load fails. *)
Lemma reroute_sequence_not_elementwise :
  let run := mock_safe_load sample_reroute sample_load
               (YMapping two_bases_doc)
               {| target_cfg := Node D2go false []; reroute_calls := [] |} in
  reroute_calls run.2
    = [VList [VStr "d2go://a.yaml"; VStr "d2go://b.yaml"]]
  /\ (VStr "d2go://a.yaml" ∉ reroute_calls run.2)
  /\ (VStr "d2go://b.yaml" ∉ reroute_calls run.2)
  /\ run.1 = Raise AttributeError
  /\ sample_reroute (VStr "d2go://a.yaml") = Ok (VStr "/pkg/d2go/a.yaml").
Proof.
  repeat split; try reflexivity.
  - intros [Hx|Hx%elem_of_nil]%elem_of_cons; [discriminate|done].
  - intros [Hx|Hx%elem_of_nil]%elem_of_cons; [discriminate|done].
Qed.

(** A load through [merge_from_file] with an inherited method that
    loads through [load_yaml_with_base] of the receiver: the file name
    is rerouted once, and the value of [_BASE_] of the file goes through
    the collaborator twice. *)
Example merge_from_file_reroutes_twice :
  let run :=
    merge_from_file sample_reroute (sample_parent_load 2)
      sample_super_merge_from_file sample_yaml (VStr "d2go://top.yaml")
      {| target_cfg := Node D2go false []; reroute_calls := [] |} in
  run.1 = Ok VNone
  /\ reroute_calls run.2
     = [VStr "d2go://top.yaml"; VStr "d2go://base.yaml";
        VStr "/pkg/d2go/base.yaml"].
Proof. split; reflexivity. Qed.

(** A parse that is no mapping: an empty file comes back as [None] and
    raises [TypeError] in the patched loader, a sequence comes back as
    it is. *)
Example mock_safe_load_not_a_mapping :
  let st := {| target_cfg := Node D2go false []; reroute_calls := [] |} in
  mock_safe_load sample_reroute sample_load (YOther VNone) st
    = (Raise TypeError, st)
  /\ mock_safe_load sample_reroute sample_load (YOther (VList [VInt 1])) st
     = (Ok (YOther (VList [VInt 1])), st)
  /\ mock_safe_load sample_reroute sample_load (YOther (VList [VStr "_BASE_"])) st
     = (Raise TypeError, st).
Proof. repeat split. Qed.

(** ** Properties of [__hash__] *)

#[global] Instance key_le_trans : Transitive key_le.
Proof. intros a b c. unfold key_le. apply transitivity. Qed.

#[global] Instance key_le_total : Total key_le.
Proof. intros a b. unfold key_le. apply total, _. Qed.

Lemma same_value_refl v : same_value v v.
Proof.
  induction v as [| b | n | id x | s | l IH | cls imm its IH] using value_ind;
    try constructor.
  - induction IH; constructor; auto.
  - intros k. destruct (dict_get its k) as [w|] eqn:Hget; constructor.
    apply dict_get_Some_elem in Hget. rewrite Forall_forall in IH.
    exact (IH _ Hget).
Qed.

(** Two nodes built from the same items in different orders are
    structurally equal. *)
Lemma same_value_permutation cls imm1 imm2 its1 its2 :
  NoDup its1.*1 -> its1 ≡ₚ its2 ->
  same_value (VCfg (Node cls imm1 its1)) (VCfg (Node cls imm2 its2)).
Proof.
  intros Hnd Hperm. constructor. intros k.
  assert (Hnd2 : NoDup its2.*1) by (by rewrite <- Hperm).
  destruct (dict_get its1 k) as [w|] eqn:Hget.
  - apply dict_get_Some_elem in Hget. rewrite Hperm in Hget.
    rewrite (dict_get_elem _ _ _ Hnd2 Hget). constructor.
    apply same_value_refl.
  - apply dict_get_None in Hget. rewrite Hperm in Hget.
    apply dict_get_None in Hget. rewrite Hget. constructor.
Qed.

Lemma dump_value_same a : forall b,
  wf_value a = true -> wf_value b = true -> same_value a b ->
  dump_value a = dump_value b.
Proof.
  induction a as [| x | n | id x | s | l IH | cls imm its IH] using value_ind;
    intros b Hwa Hwb Hsame; inversion Hsame; subst; try reflexivity.
  - (* lists *)
    apply wf_value_list in Hwa, Hwb. simpl. do 3 f_equal.
    clear Hsame. revert IH Hwa Hwb.
    match goal with H : Forall2 same_value l _ |- _ =>
      induction H as [|x y l l' Hxy Hl IHl] end; intros IH Hwa Hwb; [done|].
    apply Forall_cons in IH as [IHx IH].
    apply Forall_cons in Hwa as [Hx Hwa]. apply Forall_cons in Hwb as [Hy Hwb].
    rewrite !fmap_cons. f_equal; auto.
  - (* nodes *)
    rename its2 into its'.
    apply wf_value_node in Hwa as [Hnd Hwa].
    apply wf_value_node in Hwb as [Hnd' Hwb].
    rewrite Forall_forall in IH, Hwa, Hwb.
    match goal with H : forall k, option_Forall2 _ _ _ |- _ => rename H into Hk end.
    assert (Hdump : forall k v v', (k, v) ∈ its -> (k, v') ∈ its' ->
                                   dump_value v = dump_value v').
    { intros k v v' Hv Hv'. apply (IH _ Hv); [exact (Hwa _ Hv)|exact (Hwb _ Hv')|].
      specialize (Hk k).
      rewrite (dict_get_elem _ _ _ Hnd Hv), (dict_get_elem _ _ _ Hnd' Hv') in Hk.
      by inversion Hk. }
    simpl. do 4 f_equal.
    set (render := fun kv : string * value => (kv.1, dump_value kv.2)).
    assert (Helem : forall x, x ∈ render <$> its <-> x ∈ render <$> its').
    { intros x. rewrite !list_elem_of_fmap. split.
      - intros ([k v] & -> & Hv). specialize (Hk k).
        rewrite (dict_get_elem _ _ _ Hnd Hv) in Hk. inversion Hk as [? v' ? Hg Hg'|].
        symmetry in Hg'. apply dict_get_Some_elem in Hg'.
        exists (k, v'). split; [|done]. unfold render. simpl. f_equal. eauto.
      - intros ([k v'] & -> & Hv'). specialize (Hk k).
        rewrite (dict_get_elem _ _ _ Hnd' Hv') in Hk. inversion Hk as [v ? ? Hg Hg'|].
        symmetry in Hg. apply dict_get_Some_elem in Hg.
        exists (k, v). split; [|done]. unfold render. simpl. f_equal.
        symmetry. eauto. }
    assert (Hfst : forall d : list (string * value), (render <$> d).*1 = d.*1).
    { intros d. rewrite <- list_fmap_compose. done. }
    apply (StronglySorted_unique_strong key_le).
    + intros x1 x2 Hx1 Hx2 H12 H21.
      rewrite merge_sort_Permutation in Hx1, Hx2.
      apply Helem in Hx2.
      assert (Hk12 : x1.1 = x2.1) by (by apply (anti_symm String.le)).
      assert (Hndr : NoDup (render <$> its).*1) by (by rewrite Hfst).
      apply list_elem_of_fmap in Hx1 as ([k1 v1] & -> & Hv1).
      apply list_elem_of_fmap in Hx2 as ([k2 v2] & -> & Hv2).
      simpl in Hk12. subst k2.
      pose proof (dict_get_elem _ _ _ Hnd Hv1) as E1.
      pose proof (dict_get_elem _ _ _ Hnd Hv2) as E2.
      congruence.
    + apply StronglySorted_merge_sort; apply _.
    + apply StronglySorted_merge_sort; apply _.
    + rewrite !merge_sort_Permutation. apply NoDup_Permutation; [| |done].
      * apply (NoDup_fmap_1 fst). by rewrite Hfst.
      * apply (NoDup_fmap_1 fst). by rewrite Hfst.
Qed.

Section HashFacts.
Variable hash : string -> Z.

(** C8: two well-formed trees with the same keys and the same values
    at every level, in whatever order the keys were inserted, have the
    same hash; a clone of a tree is equal to the tree and has its
    hash. *)
Theorem hash_same_trees a b :
  wf_node a = true -> wf_node b = true ->
  same_value (VCfg a) (VCfg b) ->
  __hash__ hash a = __hash__ hash b
  /\ py_eq (VCfg (clone a)) (VCfg a) = true
  /\ __hash__ hash (clone a) = __hash__ hash a.
Proof.
  intros Hwa Hwb Hsame. split; [|split; [by apply py_eq_node_refl|done]].
  unfold __hash__, dump. f_equal. by apply dump_value_same.
Qed.
End HashFacts.

Lemma hash_same_trees_witness :
  __hash__ (fun s => Z.of_nat (String.length s)) built_lr_first
  = __hash__ (fun s => Z.of_nat (String.length s)) built_seed_first
  /\ py_eq (VCfg (clone built_lr_first)) (VCfg built_lr_first) = true
  /\ __hash__ (fun s => Z.of_nat (String.length s)) (clone built_lr_first)
     = __hash__ (fun s => Z.of_nat (String.length s)) built_lr_first.
Proof.
  apply (hash_same_trees _ built_lr_first built_seed_first);
    [reflexivity | reflexivity |].
  constructor. intros k. cbn [dict_get].
  destruct (String.eqb_spec "SOLVER" k) as [<-|Hsolver].
  - change (String.eqb "SEED" "SOLVER") with false. cbn iota.
    constructor. apply same_value_permutation; [|apply perm_swap].
    apply (bool_decide_unpack _). vm_compute. exact I.
  - destruct (String.eqb "SEED" k); constructor. constructor.
Defined.

(** A clone of a tree that holds a NaN is equal to the tree: the two
    hold the same float object. *)
Example clone_nan_equal :
  py_eq (VCfg (clone nan_cfg)) (VCfg nan_cfg) = true /\ py_eq nan nan = false.
Proof. split; reflexivity. Qed.

(** ** The diff table *)

Lemma omap_all_None {A B} (f : A -> option B) l :
  (forall x, x ∈ l -> f x = None) -> omap f l = [].
Proof.
  induction l as [|x l IH]; intros H; [done|]. simpl.
  rewrite (H x) by left. apply IH. intros y Hy. apply H. by right.
Qed.

Lemma dotted_lt_irrefl k : ~ dotted_lt k k.
Proof. apply path_lt_irrefl. Qed.

(** The rows of a diff of two trees with the same flattened keys. *)
Lemma diff_table_rows_of_leaves cfg original_cfg :
  class_of cfg = D2go -> class_of original_cfg = D2go ->
  wf_node cfg = true -> wf_node original_cfg = true ->
  dot_free cfg = true -> dot_free original_cfg = true ->
  (forall k, k ∈ join_dots <$> leaf_paths cfg
             <-> k ∈ join_dots <$> leaf_paths original_cfg) ->
  exists table,
    diff_table cfg original_cfg = Ok table
    /\ (forall k old_value new_value,
          (k, old_value, new_value) ∈ table <->
          exists p, k = join_dots p
                    /\ is_flat_leaf original_cfg p old_value
                    /\ is_flat_leaf cfg p new_value
                    /\ py_eq old_value new_value = false)
    /\ StronglySorted dotted_lt table.*1.*1
    /\ NoDup table.*1.*1.
Proof.
  intros Hcc Hco Hwc Hwo Hdc Hdo Hkeys.
  assert (Hsorted :
    StronglySorted dotted_lt
      (omap (changed_row cfg original_cfg) (leaf_paths cfg)).*1.*1).
  { apply changed_rows_sorted; [by apply leaf_paths_sorted|].
    apply Forall_forall. intros p Hp. by apply (leaf_paths_ok cfg). }
  eexists. split; [by apply diff_table_same_keys|].
  pose proof (leaf_paths_same_keys _ _ Hwc Hwo Hdc Hdo Hkeys) as Hlp.
  split; [|split].
  - intros k vo vn. rewrite list_elem_of_omap. split.
    + intros (p & Hp & (-> & Ho & Hn & Hne)%changed_row_Some).
      exists p. split; [done|].
      pose proof Hp as Hp'. rewrite Hlp in Hp'.
      apply leaf_paths_elem in Hp as [v Hv].
      apply leaf_paths_elem in Hp' as [v' Hv'].
      assert (v = vn) as ->
        by (apply is_flat_leaf_lookup in Hv as (_ & ? & _); congruence).
      assert (v' = vo) as ->
        by (apply is_flat_leaf_lookup in Hv' as (_ & ? & _); congruence).
      done.
    + intros (p & -> & Ho & Hn & Hne). exists p. split.
      * apply leaf_paths_elem. eauto.
      * apply changed_row_Some.
        apply is_flat_leaf_lookup in Ho as (_ & ? & _).
        apply is_flat_leaf_lookup in Hn as (_ & ? & _). done.
  - done.
  - eapply StronglySorted_strict_NoDup; [apply dotted_lt_irrefl|done].
Qed.

(** C5 (amended): for well-formed trees of the class [CfgNode] whose
    keys hold no dot.  If the two trees have the same set of flattened
    keys, [diff_table] returns one row [(key path, old value, new
    value)] for every flattened leaf whose values differ and no other
    row, the rows in ascending order of their key paths compared segment
    by segment, which is the order of a traversal that sorts the keys of
    every node.  If the sets differ, it fails with an [AssertionError].
    The diff of a tree with itself lists the leaves that hold a NaN, a
    float that differs from itself, and is empty when there is none. *)
Theorem diff_table_spec cfg original_cfg :
  class_of cfg = D2go -> class_of original_cfg = D2go ->
  wf_node cfg = true -> wf_node original_cfg = true ->
  dot_free cfg = true -> dot_free original_cfg = true ->
  exists all_new_keys all_old_keys,
    _find_all_keys cfg = Ok all_new_keys
    /\ _find_all_keys original_cfg = Ok all_old_keys
    /\ ((forall k, k ∈ all_new_keys <-> k ∈ all_old_keys) ->
        exists table,
          diff_table cfg original_cfg = Ok table
          /\ (forall k old_value new_value,
                (k, old_value, new_value) ∈ table <->
                exists p, k = join_dots p
                          /\ is_flat_leaf original_cfg p old_value
                          /\ is_flat_leaf cfg p new_value
                          /\ py_eq old_value new_value = false)
          /\ StronglySorted dotted_lt table.*1.*1
          /\ NoDup table.*1.*1)
    /\ (~ (forall k, k ∈ all_new_keys <-> k ∈ all_old_keys) ->
        diff_table cfg original_cfg = Raise AssertionError)
    /\ (cfg = original_cfg ->
        exists table,
          diff_table cfg original_cfg = Ok table
          /\ (forall k old_value new_value,
                (k, old_value, new_value) ∈ table <->
                exists p, k = join_dots p
                          /\ is_flat_leaf cfg p old_value
                          /\ new_value = old_value
                          /\ is_nan old_value = true)
          /\ ((forall p v, is_flat_leaf cfg p v -> is_nan v = false) ->
              table = [])).
Proof.
  intros Hcc Hco Hwc Hwo Hdc Hdo.
  exists (join_dots <$> leaf_paths cfg), (join_dots <$> leaf_paths original_cfg).
  split; [by apply _find_all_keys_paths|].
  split; [by apply _find_all_keys_paths|].
  split; [|split].
  - by apply diff_table_rows_of_leaves.
  - intros Hkeys. unfold diff_table. rewrite !_find_all_keys_paths by done.
    cbn [mbind res_bind]. rewrite bool_decide_eq_false_2; [done|].
    intros Heq. apply Hkeys. intros k. by rewrite Heq.
  - intros <-.
    destruct (diff_table_rows_of_leaves cfg cfg) as (table & Ht & Hrows & _);
      [done..|].
    assert (Hnan : forall k old_value new_value,
      (k, old_value, new_value) ∈ table <->
      exists p, k = join_dots p /\ is_flat_leaf cfg p old_value
                /\ new_value = old_value /\ is_nan old_value = true).
    { intros k vo vn. rewrite Hrows. split.
      - intros (p & -> & Ho & Hn & Hne). exists p. split; [done|].
        split; [done|].
        pose proof (is_flat_leaf_unique _ _ _ _ Ho Hn) as <-.
        split; [done|].
        rewrite py_eq_self in Hne by (by eapply is_flat_leaf_wf).
        by apply negb_false_iff.
      - intros (p & -> & Ho & -> & Hnan). exists p. repeat split; try done.
        rewrite py_eq_self by (by eapply is_flat_leaf_wf). by rewrite Hnan. }
    exists table. split; [done|]. split; [done|].
    intros Hnone. destruct table as [|[[k vo] vn] table]; [done|].
    destruct (proj1 (Hnan k vo vn)) as (p & _ & Hleaf & _ & Hn); [left|].
    rewrite (Hnone _ _ Hleaf) in Hn. done.
Qed.

Example lr_keys :
  _find_all_keys lr_new = Ok ["SEED"; "SOLVER.BASE_LR"; "SOLVER.MAX_ITER"]
  /\ _find_all_keys lr_old = Ok ["SEED"; "SOLVER.BASE_LR"; "SOLVER.MAX_ITER"].
Proof. split; reflexivity. Qed.

Lemma diff_table_spec_witness :
  exists all_new_keys all_old_keys,
    _find_all_keys lr_new = Ok all_new_keys
    /\ _find_all_keys lr_old = Ok all_old_keys
    /\ ((forall k, k ∈ all_new_keys <-> k ∈ all_old_keys) ->
        exists table,
          diff_table lr_new lr_old = Ok table
          /\ (forall k old_value new_value,
                (k, old_value, new_value) ∈ table <->
                exists p, k = join_dots p
                          /\ is_flat_leaf lr_old p old_value
                          /\ is_flat_leaf lr_new p new_value
                          /\ py_eq old_value new_value = false)
          /\ StronglySorted dotted_lt table.*1.*1
          /\ NoDup table.*1.*1)
    /\ (~ (forall k, k ∈ all_new_keys <-> k ∈ all_old_keys) ->
        diff_table lr_new lr_old = Raise AssertionError)
    /\ (lr_new = lr_old ->
        exists table,
          diff_table lr_new lr_old = Ok table
          /\ (forall k old_value new_value,
                (k, old_value, new_value) ∈ table <->
                exists p, k = join_dots p
                          /\ is_flat_leaf lr_new p old_value
                          /\ new_value = old_value
                          /\ is_nan old_value = true)
          /\ ((forall p v, is_flat_leaf lr_new p v -> is_nan v = false) ->
              table = [])).
Proof. apply (diff_table_spec lr_new lr_old); reflexivity. Defined.

Example diff_table_lr :
  diff_table lr_new lr_old
  = Ok [("SOLVER.BASE_LR", VInt 10, VInt 20);
        ("SOLVER.MAX_ITER", VInt 900, VInt 450)].
Proof. reflexivity. Qed.

(** C5 (as stated, refuted): the two trees have the same flattened
    keys, and the rows of their diff are not in the lexicographic order
    of the dotted key paths: the row of ["A.X"] comes before the row of
    ["A-B"], and ["A-B"] is the smaller string. *)
Lemma diff_table_not_lexicographic :
  _find_all_keys hyphen_new = _find_all_keys hyphen_old
  /\ diff_table hyphen_new hyphen_old
     = Ok [("A.X", VInt 1, VInt 2); ("A-B", VInt 1, VInt 2)]
  /\ String.ltb "A-B" "A.X" = true
  /\ ~ Sorted String.le ["A.X"; "A-B"].
Proof.
  repeat split.
  intros H. apply Sorted_inv in H as [_ H]. apply HdRel_inv in H.
  by vm_compute in H.
Qed.

(** The diff of a tree with itself is not empty when a leaf holds a
    NaN; a list that holds the NaN is equal to itself, item by item. *)
Example diff_table_nan :
  diff_table nan_cfg nan_cfg = Ok [("LR", nan, nan)].
Proof. reflexivity. Qed.

(** A child of the parent class is a flattened leaf: the row of a
    change below it holds the two nodes. *)
Example diff_table_parent_class_child :
  diff_table
    (Node D2go false [("A", VCfg (Node Detectron2 false [("X", VInt 2)]))])
    (Node D2go false [("A", VCfg (Node Detectron2 false [("X", VInt 1)]))])
  = Ok [("A", VCfg (Node Detectron2 false [("X", VInt 1)]),
              VCfg (Node Detectron2 false [("X", VInt 2)]))].
Proof. reflexivity. Qed.

(** The assertion of line 23 fails on a tree of the parent class. *)
Lemma diff_table_parent_class cfg original_cfg :
  class_of cfg = Detectron2 \/ class_of original_cfg = Detectron2 ->
  diff_table cfg original_cfg = Raise AssertionError.
Proof.
  intros H. unfold diff_table.
  destruct (class_of original_cfg) eqn:Ho.
  - destruct H as [H|H]; [|done].
    rewrite (_find_all_keys_paths original_cfg) by done.
    by rewrite (_find_all_keys_parent_class cfg).
  - by rewrite (_find_all_keys_parent_class original_cfg).
Qed.

(** A key with a dot is read back as a path: the trees below have the
    same flattened keys, and the diff fails with a [KeyError]. *)
Example diff_table_dotted_key :
  _find_all_keys (Node D2go false [("a.b", VInt 1)])
  = _find_all_keys (Node D2go false [("a", VCfg (Node D2go false [("b", VInt 1)]))])
  /\ diff_table (Node D2go false [("a.b", VInt 1)])
       (Node D2go false [("a", VCfg (Node D2go false [("b", VInt 1)]))])
     = Raise KeyError.
Proof. split; reflexivity. Qed.

(** ** Properties of [as_flattened_dict] *)

Lemma foldl_ext_elem {A B} (f g : A -> B -> A) l a :
  (forall acc x, x ∈ l -> f acc x = g acc x) -> foldl f a l = foldl g a l.
Proof.
  revert a. induction l as [|x l IH]; intros a H; [done|]. simpl.
  rewrite (H a x) by left. apply IH. intros acc y Hy. apply H. by right.
Qed.

Lemma _as_flattened_dict_rec_fuels d1 : forall d2 self prefix,
  height self <= d1 -> height self <= d2 ->
  _as_flattened_dict_rec d1 self prefix = _as_flattened_dict_rec d2 self prefix.
Proof.
  induction d1 as [|d1 IH]; intros d2 self prefix H1 H2.
  { pose proof (height_pos self). lia. }
  destruct d2 as [|d2]; [pose proof (height_pos self); lia|].
  simpl. apply foldl_ext_elem. intros ret key _.
  destruct (dict_get (items self) key) as [w|] eqn:Hget; [|done].
  destruct (as_CfgNode w) as [sub|] eqn:Hsub; [|done].
  apply as_CfgNode_Some in Hsub as [-> _].
  apply height_child in Hget. f_equal. apply IH; lia.
Qed.

Lemma _as_flattened_dict_rec_fuel d self prefix :
  height self <= d ->
  _as_flattened_dict_rec d self prefix = _as_flattened_dict self prefix.
Proof. intros Hd. by apply _as_flattened_dict_rec_fuels. Qed.

Lemma dict_set_Forall {V} (P : V -> Prop) (d : list (string * V)) k v :
  Forall (fun kv => P kv.2) d -> P v -> Forall (fun kv => P kv.2) (dict_set d k v).
Proof.
  intros Hd Hv. induction Hd as [|[k0 v0] d Hx Hd IH]; simpl.
  - by constructor.
  - destruct (String.eqb k0 k); constructor; eauto.
Qed.

Lemma dict_update_Forall {V} (P : V -> Prop) (d other : list (string * V)) :
  Forall (fun kv => P kv.2) d -> Forall (fun kv => P kv.2) other ->
  Forall (fun kv => P kv.2) (dict_update d other).
Proof.
  intros Hd Ho. revert d Hd. unfold dict_update.
  induction Ho as [|[k v] other Hkv Ho IH]; intros d Hd; [done|]. simpl.
  apply IH. by apply dict_set_Forall.
Qed.

Lemma _as_flattened_dict_rec_leaves d : forall self prefix,
  Forall (fun kv => is_CfgNode kv.2 = false)
    (_as_flattened_dict_rec d self prefix).
Proof.
  induction d as [|d IH]; intros self prefix; [constructor|]. simpl.
  assert (Hnil : Forall (fun kv : string * value => is_CfgNode kv.2 = false) [])
    by constructor.
  revert Hnil. generalize (@nil (string * value)) as ret.
  induction (sorted_keys self) as [|key ks IHks]; intros ret Hret; simpl.
  { done. }
  apply IHks.
  destruct (dict_get (items self) key) as [w|]; [|done].
  destruct (as_CfgNode w) as [sub|] eqn:Hsub.
  - apply (dict_update_Forall (fun v => is_CfgNode v = false)); [done|apply IH].
  - apply (dict_set_Forall (fun v => is_CfgNode v = false)); [done|].
    unfold is_CfgNode. by rewrite Hsub.
Qed.

(** X1: no value of the flattened dictionary is an instance of
    [CfgNode], whatever the tree: every node of that class is expanded
    into the values below it.  A node of the parent class is kept as a
    value. *)
Theorem as_flattened_dict_no_node self k v :
  (k, v) ∈ as_flattened_dict self -> is_CfgNode v = false.
Proof.
  intros Hin.
  pose proof (_as_flattened_dict_rec_leaves (height self) self EmptyString) as H.
  rewrite Forall_forall in H. exact (H _ Hin).
Qed.

Lemma as_flattened_dict_no_node_witness :
  ("SOLVER.BASE_LR", VInt 20) ∈ as_flattened_dict lr_new
  /\ is_CfgNode (VInt 20) = false.
Proof.
  assert (("SOLVER.BASE_LR", VInt 20) ∈ as_flattened_dict lr_new) as Hin.
  { change (as_flattened_dict lr_new)
      with [("SEED", VInt 1); ("SOLVER.BASE_LR", VInt 20);
            ("SOLVER.MAX_ITER", VInt 450)].
    right. left. }
  split; [exact Hin|].
  exact (as_flattened_dict_no_node lr_new "SOLVER.BASE_LR" (VInt 20) Hin).
Defined.

(** A child of the parent class is a value of the flattened dictionary,
    and a key of the diff table. *)
Example as_flattened_dict_parent_class_child :
  as_flattened_dict mixed_cfg
  = [("A", VCfg (Node Detectron2 false [("X", VInt 1)])); ("SEED", VInt 1)]
  /\ _find_all_keys mixed_cfg = Ok ["A"; "SEED"]
  /\ get_field_or_none mixed_cfg "A.X" = VInt 1
  /\ _get_value mixed_cfg "A.X" = Ok (VInt 1).
Proof. repeat split. Qed.

Lemma dict_set_keys_NoDup {V} (d : list (string * V)) k v :
  NoDup d.*1 -> NoDup (dict_set d k v).*1.
Proof.
  induction d as [|[k0 v0] d IH]; simpl; intros Hnd.
  - repeat constructor. by intros ?%elem_of_nil.
  - apply NoDup_cons in Hnd as [Hk0 Hnd].
    destruct (String.eqb_spec k0 k) as [->|Hne]; simpl.
    + by constructor.
    + constructor; [|by apply IH].
      intros Hin. apply dict_get_is_Some in Hin.
      rewrite dict_get_set in Hin.
      destruct (String.eqb_spec k k0) as [->|_]; [done|].
      by apply dict_get_is_Some in Hin.
Qed.

Lemma dict_update_keys_NoDup {V} (d other : list (string * V)) :
  NoDup d.*1 -> NoDup (dict_update d other).*1.
Proof.
  unfold dict_update. revert d.
  induction other as [|[k v] other IH]; intros d Hd; [done|]. simpl.
  by apply IH, dict_set_keys_NoDup.
Qed.

Lemma _as_flattened_dict_rec_NoDup d self prefix :
  NoDup (_as_flattened_dict_rec d self prefix).*1.
Proof.
  destruct d as [|d]; [constructor|]. simpl.
  assert (Hnil : NoDup (@nil (string * value)).*1) by constructor.
  revert Hnil. generalize (@nil (string * value)) as ret.
  induction (sorted_keys self) as [|key ks IHks]; intros ret Hret; [done|].
  simpl. apply IHks.
  destruct (dict_get (items self) key) as [w|]; [|done].
  destruct (as_CfgNode w) as [sub|].
  - by apply dict_update_keys_NoDup.
  - by apply dict_set_keys_NoDup.
Qed.

Lemma dict_set_fresh {V} (d : list (string * V)) k v :
  k ∉ d.*1 -> dict_set d k v = d ++ [(k, v)].
Proof.
  induction d as [|[k0 v0] d IH]; simpl; intros Hk; [done|].
  apply not_elem_of_cons in Hk as [Hne Hk].
  destruct (String.eqb_spec k0 k) as [->|_]; [done|]. by rewrite IH.
Qed.

Lemma dict_update_fresh {V} (d other : list (string * V)) :
  NoDup (d ++ other).*1 -> dict_update d other = d ++ other.
Proof.
  unfold dict_update. revert d.
  induction other as [|[k v] other IH]; intros d Hnd; simpl.
  - by rewrite app_nil_r.
  - replace (d ++ (k, v) :: other) with ((d ++ [(k, v)]) ++ other) in *
      by (by rewrite <- app_assoc).
    rewrite dict_set_fresh.
    + by apply IH.
    + rewrite !fmap_app in Hnd. apply NoDup_app in Hnd as [Hnd _].
      apply NoDup_app in Hnd as (_ & Hd & _).
      intros Hin. apply (Hd k Hin). simpl. left.
Qed.

Lemma foldl_dict_update {V} (parts : string -> list (string * V)) ks :
  forall acc,
    NoDup (acc ++ (ks ≫= parts)).*1 ->
    foldl (fun ret key => dict_update ret (parts key)) acc ks
    = acc ++ (ks ≫= parts).
Proof.
  induction ks as [|key ks IH]; intros acc Hnd; simpl.
  - by rewrite app_nil_r.
  - rewrite bind_cons in *. rewrite app_assoc in *.
    rewrite dict_update_fresh; [by apply IH|].
    rewrite fmap_app in Hnd. by apply NoDup_app in Hnd as [Hnd _].
Qed.

Lemma NoDup_bind_part {A B C} (f : A -> list (B * C)) l x :
  NoDup (l ≫= f).*1 -> x ∈ l -> NoDup (f x).*1.
Proof.
  induction l as [|y l IH]; intros Hnd Hx; [by apply elem_of_nil in Hx|].
  rewrite bind_cons, fmap_app in Hnd. apply NoDup_app in Hnd as (Hy & _ & Hl).
  apply elem_of_cons in Hx as [->|Hx]; auto.
Qed.

Lemma fmap_bind_list {A B C} (f : B -> C) (g : A -> list B) l :
  f <$> (l ≫= g) = l ≫= (fun x => f <$> g x).
Proof.
  induction l as [|x l IH]; [done|]. by rewrite !bind_cons, fmap_app, IH.
Qed.

Lemma string_app_assoc (a b c : string) : (a +:+ b) +:+ c = a +:+ (b +:+ c).
Proof.
  induction a as [|x a IH]; [done|].
  change (String x ((a +:+ b) +:+ c) = String x (a +:+ (b +:+ c))).
  by rewrite IH.
Qed.

Lemma key_path_dotted prefix key s :
  prefix <> EmptyString \/ key <> EmptyString ->
  key_path (key_path prefix key) s = key_path prefix (dotted key s).
Proof.
  intros H. destruct prefix as [|c prefix].
  - destruct H as [H|H]; [done|]. simpl. by destruct key.
  - unfold key_path at 2 3. unfold dotted.
    change (String c prefix +:+ String dot key)
      with (String c (prefix +:+ String dot key)).
    unfold key_path, dotted.
    change (String c (prefix +:+ String dot key) +:+ String dot s)
      with ((String c prefix +:+ String dot key) +:+ String dot s).
    rewrite string_app_assoc. done.
Qed.

Lemma key_path_nonempty prefix key :
  prefix <> EmptyString \/ key <> EmptyString ->
  key_path prefix key <> EmptyString.
Proof.
  intros H. destruct prefix as [|c prefix]; [by destruct H|]. done.
Qed.

(** With distinct key paths nothing is overwritten: the flattened
    dictionary lists the flattened leaves in the order of the
    traversal. *)
Lemma _as_flattened_dict_rec_entries d : forall self prefix,
  prefix <> EmptyString \/ EmptyString ∉ keys self ->
  NoDup (flat_entry prefix self <$> leaf_paths_rec d self).*1 ->
  _as_flattened_dict_rec d self prefix
  = flat_entry prefix self <$> leaf_paths_rec d self.
Proof.
  induction d as [|d IH]; intros self prefix Hpre Hnd; [done|].
  simpl in *. rewrite fmap_bind_list in *.
  set (gpart := fun key =>
    flat_entry prefix self
      <$> match dict_get (items self) key with
          | Some w =>
              match as_CfgNode w with
              | Some value => (key ::.) <$> leaf_paths_rec d value
              | None => [[key]]
              end
          | None => [[key]]
          end) in *.
  assert (Hkey : forall key, key ∈ sorted_keys self ->
            prefix <> EmptyString \/ key <> EmptyString).
  { intros key Hkey. destruct Hpre as [?|Hpre]; [by left|right].
    intros ->. apply Hpre. apply dict_get_is_Some.
    by apply elem_of_sorted_keys. }
  assert (Hchild : forall key child,
            key ∈ sorted_keys self ->
            dict_get (items self) key = Some (VCfg child) ->
            class_of child = D2go ->
            gpart key
            = flat_entry (key_path prefix key) child <$> leaf_paths_rec d child).
  { intros key child Hin Hget Hcls. unfold gpart.
    rewrite Hget, (as_CfgNode_d2go _ Hcls).
    rewrite <- list_fmap_compose. apply Forall_fmap_ext_1, Forall_forall.
    intros p Hp. unfold flat_entry, compose. f_equal.
    - rewrite join_dots_cons by (by eapply leaf_paths_rec_nonempty).
      by rewrite key_path_dotted by auto.
    - change (lookup_path (VCfg self) (key :: p))
        with (match dict_get (items self) key with
              | Some w => lookup_path w p
              | None => None
              end).
      by rewrite Hget. }
  rewrite <- (app_nil_l (sorted_keys self ≫= gpart)).
  rewrite <- foldl_dict_update by done.
  apply foldl_ext_elem. intros ret key Hin.
  destruct (dict_get (items self) key) as [w|] eqn:Hget.
  2:{ apply elem_of_sorted_keys in Hin. rewrite Hget in Hin. by destruct Hin. }
  destruct (as_CfgNode w) as [child|] eqn:Hw.
  - apply as_CfgNode_Some in Hw as [-> Hcls].
    rewrite (Hchild key child Hin Hget Hcls). f_equal. apply IH.
    + left. apply key_path_nonempty. auto.
    + rewrite <- (Hchild key child Hin Hget Hcls).
      by apply (NoDup_bind_part gpart (sorted_keys self)).
  - assert (gpart key = [(key_path prefix key, w)]) as ->.
    { unfold gpart. rewrite Hget, Hw. unfold flat_entry. simpl.
      by rewrite Hget. }
    done.
Qed.

Lemma leaf_paths_join_NoDup obj :
  wf_node obj = true -> dot_free obj = true ->
  NoDup (join_dots <$> leaf_paths obj).
Proof.
  intros Hwf Hdf. apply NoDup_fmap_2_strong.
  - intros p q Hp Hq Hpq.
    destruct (leaf_paths_ok obj p Hdf Hp) as [Hp1 Hp2].
    destruct (leaf_paths_ok obj q Hdf Hq) as [Hq1 Hq2].
    apply (f_equal (split_on dot)) in Hpq.
    by rewrite !split_on_join_dots in Hpq.
  - eapply StronglySorted_strict_NoDup;
      [apply path_lt_irrefl|by apply leaf_paths_sorted].
Qed.

Lemma as_flattened_dict_entries obj :
  wf_node obj = true -> dot_free obj = true -> EmptyString ∉ keys obj ->
  as_flattened_dict obj = flat_entry EmptyString obj <$> leaf_paths obj.
Proof.
  intros Hwf Hdf Hne. apply _as_flattened_dict_rec_entries; [by right|].
  rewrite <- list_fmap_compose.
  by apply leaf_paths_join_NoDup.
Qed.

Lemma as_flattened_dict_elem obj k v :
  wf_node obj = true -> dot_free obj = true -> EmptyString ∉ keys obj ->
  (k, v) ∈ as_flattened_dict obj <->
  exists p, k = join_dots p /\ is_flat_leaf obj p v.
Proof.
  intros Hwf Hdf Hne. rewrite as_flattened_dict_entries by done.
  rewrite list_elem_of_fmap. unfold flat_entry. simpl. split.
  - intros (p & [= -> ->] & [w Hw]%leaf_paths_elem). exists p. split; [done|].
    pose proof Hw as (? & Hl & ?)%is_flat_leaf_lookup. by rewrite Hl.
  - intros (p & -> & Hleaf). exists p. split.
    + by apply is_flat_leaf_lookup in Hleaf as (_ & -> & _).
    + apply leaf_paths_elem. eauto.
Qed.

(** X2: for a well-formed tree of the class [CfgNode] without a dot in
    a key and without the empty key at its top, the keys of the
    flattened dictionary are the flattened keys of the diff table, in
    the same order. *)
Theorem as_flattened_dict_keys obj :
  class_of obj = D2go ->
  wf_node obj = true -> dot_free obj = true -> EmptyString ∉ keys obj ->
  _find_all_keys obj = Ok (as_flattened_dict obj).*1.
Proof.
  intros Hcls Hwf Hdf Hne. rewrite as_flattened_dict_entries by done.
  rewrite _find_all_keys_paths, <- list_fmap_compose by done. done.
Qed.

(** X3: under the conditions of X2 on the keys, the flattened
    dictionary maps a key to a value exactly when the key is the dotted
    path of a flattened leaf that holds the value: a path that leads
    through nodes of the class [CfgNode] to a value that is no instance
    of that class. *)
Theorem as_flattened_dict_lookup obj k v :
  wf_node obj = true -> dot_free obj = true -> EmptyString ∉ keys obj ->
  dict_get (as_flattened_dict obj) k = Some v <->
  exists p, k = join_dots p /\ is_flat_leaf obj p v.
Proof.
  intros Hwf Hdf Hne. rewrite <- as_flattened_dict_elem by done. split.
  - apply dict_get_Some_elem.
  - apply dict_get_elem, _as_flattened_dict_rec_NoDup.
Qed.

Lemma lookup_path_get_value_iff v p w :
  _get_value_loop v p = Ok w <-> lookup_path v p = Some w.
Proof.
  split; [|apply lookup_path_get_value].
  revert v. induction p as [|k p IH]; intros v; simpl; [by intros [= ->]|].
  destruct v as [| | | | | |c]; try done. simpl.
  destruct (dict_get (items c) k); [apply IH|done].
Qed.

Lemma get_field_or_none_of_get_value obj field_path v :
  _get_value obj field_path = Ok v -> get_field_or_none obj field_path = v.
Proof.
  unfold _get_value. intros Hv%lookup_path_get_value_iff.
  by rewrite get_field_or_none_lookup, Hv.
Qed.


(** X4: under the conditions of X2 on the keys, every entry of the
    flattened dictionary is read back by [get_field_or_none]. *)
Theorem as_flattened_dict_get_field obj k v :
  wf_node obj = true -> dot_free obj = true -> EmptyString ∉ keys obj ->
  (k, v) ∈ as_flattened_dict obj ->
  get_field_or_none obj k = v.
Proof.
  intros Hwf Hdf Hne (p & -> & Hleaf)%as_flattened_dict_elem; [|done..].
  apply get_field_or_none_of_get_value.
  exact (_get_value_leaf _ _ _ Hdf Hleaf).
Qed.

(** X6: in a tree without a dot in a key, every key that
    [_find_all_keys] lists is read back by [_get_value], and the value
    read is no instance of [CfgNode]. *)
Theorem _find_all_keys_readable obj all_keys k :
  dot_free obj = true -> _find_all_keys obj = Ok all_keys -> k ∈ all_keys ->
  exists v, _get_value obj k = Ok v /\ is_CfgNode v = false.
Proof.
  intros Hdf Hkeys. apply _find_all_keys_Ok in Hkeys as [_ ->].
  intros (p & -> & [v Hv]%leaf_paths_elem)%list_elem_of_fmap.
  exists v. split; [by apply _get_value_leaf|].
  by apply is_flat_leaf_lookup in Hv as (_ & _ & ?).
Qed.

(** X5: a node of the class [CfgNode] stored under the empty key at the
    top of a tree is flattened without a prefix, as if it were the tree
    itself, because the empty prefix is falsy; [_find_all_keys] keeps
    the dot. *)
Theorem as_flattened_dict_empty_key cls imm child :
  class_of child = D2go ->
  as_flattened_dict (Node cls imm [(EmptyString, VCfg child)])
  = as_flattened_dict child
  /\ exists sub_keys,
       _find_all_keys child = Ok sub_keys
       /\ _find_all_keys (Node D2go imm [(EmptyString, VCfg child)])
          = Ok (dotted EmptyString <$> sub_keys).
Proof.
  intros Hcls. split; [|eexists; split; [by apply _find_all_keys_paths|]].
  - unfold as_flattened_dict, _as_flattened_dict.
    assert (height (Node cls imm [(EmptyString, VCfg child)]) = S (height child))
      as -> by (simpl; by rewrite Nat.max_0_r).
    cbn [_as_flattened_dict_rec]. unfold sorted_keys, keys. cbn [items].
    change (merge_sort String.le [(EmptyString, VCfg child)].*1)
      with [EmptyString].
    cbn [foldl dict_get]. rewrite String.eqb_refl, (as_CfgNode_d2go _ Hcls).
    apply dict_update_fresh. apply _as_flattened_dict_rec_NoDup.
  - rewrite _find_all_keys_paths by done. f_equal.
    unfold leaf_paths at 1.
    assert (height (Node D2go imm [(EmptyString, VCfg child)]) = S (height child))
      as -> by (simpl; by rewrite Nat.max_0_r).
    cbn [leaf_paths_rec]. unfold sorted_keys, keys. cbn [items].
    change (merge_sort String.le [(EmptyString, VCfg child)].*1)
      with [EmptyString].
    rewrite bind_cons. change (@nil string ≫= _) with (@nil (list string)).
    rewrite app_nil_r. cbn [dict_get].
    rewrite String.eqb_refl, (as_CfgNode_d2go _ Hcls).
    by rewrite <- join_dots_leaf_paths.
Qed.

Lemma lr_new_no_empty_key : EmptyString ∉ keys lr_new.
Proof.
  intros H. repeat (apply elem_of_cons in H as [H|H]; [discriminate|]).
  by apply elem_of_nil in H.
Qed.

Lemma as_flattened_dict_keys_witness :
  _find_all_keys lr_new = Ok (as_flattened_dict lr_new).*1.
Proof.
  apply (as_flattened_dict_keys lr_new);
    [reflexivity | reflexivity | reflexivity | apply lr_new_no_empty_key].
Defined.

Lemma as_flattened_dict_lookup_witness :
  dict_get (as_flattened_dict lr_new) "SOLVER.BASE_LR" = Some (VInt 20) <->
  exists p, "SOLVER.BASE_LR" = join_dots p /\ is_flat_leaf lr_new p (VInt 20).
Proof.
  apply (as_flattened_dict_lookup lr_new);
    [reflexivity | reflexivity | apply lr_new_no_empty_key].
Defined.

Lemma as_flattened_dict_get_field_witness :
  get_field_or_none lr_new "SOLVER.MAX_ITER" = VInt 450.
Proof.
  apply (as_flattened_dict_get_field lr_new);
    [reflexivity | reflexivity | apply lr_new_no_empty_key |].
  vm_compute. do 2 right. left.
Defined.

Lemma _find_all_keys_readable_witness :
  exists v, _get_value lr_new "SOLVER.BASE_LR" = Ok v /\ is_CfgNode v = false.
Proof.
  apply (_find_all_keys_readable lr_new
           ["SEED"; "SOLVER.BASE_LR"; "SOLVER.MAX_ITER"]);
    [reflexivity | reflexivity |].
  right. left.
Defined.

Lemma as_flattened_dict_empty_key_witness :
  as_flattened_dict (Node D2go false [(EmptyString, VCfg lr_new)])
  = as_flattened_dict lr_new
  /\ exists sub_keys,
       _find_all_keys lr_new = Ok sub_keys
       /\ _find_all_keys (Node D2go false [(EmptyString, VCfg lr_new)])
          = Ok (dotted EmptyString <$> sub_keys).
Proof. apply (as_flattened_dict_empty_key D2go false lr_new). reflexivity. Defined.

(** ** Symmetry of [==] and of the diff table *)

Lemma py_eq_node c1 i j c2 ia ib :
  py_eq (VCfg (Node c1 i ia)) (VCfg (Node c2 j ib))
  = Nat.eqb (length ia) (length ib)
    && forallb (fun kv => match dict_get ib kv.1 with
                          | Some y => is_same_float kv.2 y || py_eq kv.2 y
                          | None => false
                          end) ia.
Proof.
  simpl. f_equal. induction ia as [|[k x] ia IH]; [done|]. simpl.
  destruct (dict_get ib k); [|done]. by rewrite IH.
Qed.

Lemma py_eq_list la lb :
  py_eq (VList la) (VList lb) = true <->
  Forall2 (fun x y => is_same_float x y || py_eq x y = true) la lb.
Proof.
  simpl. revert lb. induction la as [|x la IH]; intros [|y lb]; simpl.
  - split; [constructor|done].
  - split; [done|inversion 1].
  - split; [done|inversion 1].
  - rewrite andb_true_iff, IH. split.
    + intros [? ?]. by constructor.
    + inversion 1; subst. done.
Qed.

Lemma py_eq_true_sym a : forall b,
  wf_value a = true -> wf_value b = true ->
  py_eq a b = true -> py_eq b a = true.
Proof.
  induction a as [| x | n | id f | s | l IH | cls imm its IH] using value_ind;
    intros b Hwa Hwb Heq.
  - by destruct b.
  - destruct b as [| y | n | id g | | |]; try done; simpl in *.
    + by destruct x, y.
    + by rewrite Z.eqb_sym.
  - destruct b as [| y | m | id g | | |]; try done; simpl in *;
      by rewrite Z.eqb_sym.
  - destruct b as [| y | m | id' g | | |]; try done; simpl in *.
    by rewrite float_eqb_sym.
  - destruct b as [| | | | t | |]; try done; simpl in *. by rewrite String.eqb_sym.
  - destruct b as [| | | | | l' |]; try done.
    apply wf_value_list in Hwa, Hwb. apply py_eq_list in Heq. apply py_eq_list.
    revert IH Hwa Hwb. induction Heq as [|x y l l' Hxy Hl IHl];
      intros IH Hwa Hwb; [constructor|].
    apply Forall_cons in IH as [IHx IH].
    apply Forall_cons in Hwa as [Hx Hwa]. apply Forall_cons in Hwb as [Hy Hwb].
    constructor; [|auto].
    rewrite is_same_float_sym. apply orb_true_iff in Hxy as [->|Hxy]; [done|].
    rewrite (IHx y) by done. apply orb_true_r.
  - destruct b as [| | | | | |[cls' imm' its']]; try done.
    apply wf_value_node in Hwa as [Hnd Hwa].
    apply wf_value_node in Hwb as [Hnd' Hwb].
    rewrite py_eq_node in *.
    apply andb_true_iff in Heq as [Hlen Hall].
    apply Nat.eqb_eq in Hlen. rewrite forallb_forall in Hall.
    rewrite Forall_forall in IH, Hwa, Hwb.
    assert (Hmatch : forall k x, (k, x) ∈ its ->
              exists y, dict_get its' k = Some y
                        /\ is_same_float x y || py_eq x y = true).
    { intros k x Hin. apply list_elem_of_In in Hin. specialize (Hall _ Hin).
      simpl in Hall. destruct (dict_get its' k) as [y|]; [eauto|done]. }
    assert (Hperm : its.*1 ≡ₚ its'.*1).
    { apply submseteq_length_Permutation; [|by rewrite !length_fmap, Hlen].
      apply NoDup_submseteq; [done|]. intros k Hk.
      apply list_elem_of_fmap in Hk as ([k' x] & -> & Hin).
      destruct (Hmatch _ _ Hin) as (y & Hy & _). simpl.
      apply dict_get_is_Some. by rewrite Hy. }
    apply andb_true_iff. split; [by apply Nat.eqb_eq|].
    apply forallb_forall. intros [k y] Hin%list_elem_of_In. simpl.
    assert (Hk : k ∈ its.*1).
    { rewrite Hperm. apply list_elem_of_fmap. by exists (k, y). }
    apply dict_get_is_Some in Hk as [x Hx]. rewrite Hx.
    pose proof (dict_get_Some_elem _ _ _ Hx) as Hxin.
    destruct (Hmatch _ _ Hxin) as (y' & Hy' & Hxy).
    rewrite (dict_get_elem _ _ _ Hnd' Hin) in Hy'. injection Hy' as <-.
    rewrite is_same_float_sym. apply orb_true_iff in Hxy as [->|Hxy]; [done|].
    pose proof (IH _ Hxin y (Hwa _ Hxin) (Hwb _ Hin) Hxy) as Hyx.
    simpl in Hyx. rewrite Hyx. apply orb_true_r.
Qed.

Lemma py_eq_sym a b :
  wf_value a = true -> wf_value b = true -> py_eq a b = py_eq b a.
Proof.
  intros Ha Hb. destruct (py_eq a b) eqn:Hab.
  - symmetry. by apply py_eq_true_sym.
  - destruct (py_eq b a) eqn:Hba; [|done].
    apply py_eq_true_sym in Hba; [congruence|done..].
Qed.

Lemma _get_value_wf obj k v :
  wf_node obj = true -> _get_value obj k = Ok v -> wf_value v = true.
Proof.
  unfold _get_value. intros Hwf Hv%lookup_path_get_value_iff.
  by eapply lookup_path_wf.
Qed.

(** A row with its old and its new value exchanged. *)
Lemma diff_loop_swap cfg original_cfg ks : forall acc table,
  wf_node cfg = true -> wf_node original_cfg = true ->
  diff_loop cfg original_cfg ks acc = Ok table ->
  diff_loop original_cfg cfg ks ((fun r : diff_row => (r.1.1, r.2, r.1.2)) <$> acc)
  = Ok ((fun r : diff_row => (r.1.1, r.2, r.1.2)) <$> table).
Proof.
  induction ks as [|k ks IH]; intros acc table Hwc Hwo; simpl.
  - by intros [= ->].
  - destruct (_get_value original_cfg k) as [vo|] eqn:Ho; [|done].
    destruct (_get_value cfg k) as [vn|] eqn:Hn; [|done]. simpl.
    intros Hloop. apply IH in Hloop; [|done..].
    rewrite (py_eq_sym vn vo (_get_value_wf _ _ _ Hwc Hn)
               (_get_value_wf _ _ _ Hwo Ho)).
    destruct (negb (py_eq vo vn)); [|done].
    by rewrite fmap_app in Hloop.
Qed.

(** X9: for well-formed trees, when the diff of [cfg] against
    [original_cfg] succeeds, the diff the other way round succeeds with
    the same rows in the same order, the old and the new value of each
    row exchanged. *)
Theorem diff_table_swap cfg original_cfg table :
  wf_node cfg = true -> wf_node original_cfg = true ->
  diff_table cfg original_cfg = Ok table ->
  diff_table original_cfg cfg
  = Ok ((fun r : diff_row => (r.1.1, r.2, r.1.2)) <$> table).
Proof.
  intros Hwc Hwo. unfold diff_table.
  destruct (_find_all_keys original_cfg) as [all_old_keys|]; [|done].
  destruct (_find_all_keys cfg) as [all_new_keys|]; [|done].
  cbn [mbind res_bind].
  destruct (bool_decide (all_old_keys = all_new_keys)) eqn:Hkeys; [|done].
  apply bool_decide_eq_true in Hkeys.
  rewrite bool_decide_eq_true_2 by done. rewrite Hkeys.
  intros Hloop. by apply (diff_loop_swap _ _ _ []) in Hloop.
Qed.

Lemma diff_table_swap_witness :
  diff_table lr_old lr_new
  = Ok ((fun r : diff_row => (r.1.1, r.2, r.1.2))
          <$> [("SOLVER.BASE_LR", VInt 10, VInt 20);
               ("SOLVER.MAX_ITER", VInt 900, VInt 450)]).
Proof.
  apply (diff_table_swap lr_new lr_old); reflexivity.
Defined.

(** ** The flattened keys do not depend on the insertion order *)

Lemma same_value_sorted_keys a b :
  wf_node a = true -> wf_node b = true ->
  same_value (VCfg a) (VCfg b) -> sorted_keys a = sorted_keys b.
Proof.
  intros Ha%wf_node_NoDup Hb%wf_node_NoDup Hsame.
  apply (StronglySorted_unique String.le).
  - apply StronglySorted_merge_sort; apply _.
  - apply StronglySorted_merge_sort; apply _.
  - unfold sorted_keys. rewrite !merge_sort_Permutation.
    apply NoDup_Permutation; [done..|].
    intros k. unfold keys. rewrite <- !dict_get_is_Some.
    inversion Hsame as [| | | | | |? ? ? ? ? Hk]; subst. specialize (Hk k).
    simpl. inversion Hk; split; intros [? ?]; by eauto.
Qed.

Lemma same_value_class a b :
  same_value (VCfg a) (VCfg b) -> class_of a = class_of b.
Proof. by inversion 1. Qed.

Lemma leaf_paths_rec_same d : forall a b,
  wf_node a = true -> wf_node b = true ->
  same_value (VCfg a) (VCfg b) ->
  leaf_paths_rec d a = leaf_paths_rec d b.
Proof.
  induction d as [|d IH]; intros a b Ha Hb Hsame; [done|]. simpl.
  apply list_bind_ext; [|by apply same_value_sorted_keys].
  intros key.
  inversion Hsame as [| | | | | |? ? ? ia ib Hk]; subst. specialize (Hk key).
  simpl in *.
  destruct (dict_get ia key) as [v|] eqn:Hv;
    destruct (dict_get ib key) as [w|] eqn:Hw; inversion Hk as [? ? Hvw|];
    subst; [|done].
  pose proof (wf_node_child (Node cls imm1 ia) key v Ha Hv) as Hwv.
  pose proof (wf_node_child (Node cls imm2 ib) key w Hb Hw) as Hww.
  inversion Hvw; subst; try done.
  simpl. destruct cls0; [|done].
  f_equal. by apply IH.
Qed.

(** X8: two well-formed trees that hold the same keys and values at
    every level, inserted in whatever order, have the same list of
    flattened keys. *)
Theorem _find_all_keys_same a b :
  wf_node a = true -> wf_node b = true ->
  same_value (VCfg a) (VCfg b) ->
  _find_all_keys a = _find_all_keys b.
Proof.
  intros Ha Hb Hsame. pose proof (same_value_class _ _ Hsame) as Hcls.
  destruct (class_of a) eqn:Hca.
  - rewrite !_find_all_keys_paths by done. do 2 f_equal.
    rewrite <- (leaf_paths_rec_fuel (Nat.max (height a) (height b)) a) by lia.
    rewrite <- (leaf_paths_rec_fuel (Nat.max (height a) (height b)) b) by lia.
    by apply leaf_paths_rec_same.
  - by rewrite !_find_all_keys_parent_class.
Qed.

Lemma built_orders_same : same_value (VCfg built_lr_first) (VCfg built_seed_first).
Proof.
  constructor. intros k. cbn [dict_get].
  destruct (String.eqb_spec "SOLVER" k) as [<-|Hsolver].
  - change (String.eqb "SEED" "SOLVER") with false. cbn iota.
    constructor. apply same_value_permutation; [|apply perm_swap].
    apply (bool_decide_unpack _). vm_compute. exact I.
  - destruct (String.eqb "SEED" k); constructor. constructor.
Qed.

Lemma _find_all_keys_same_witness :
  _find_all_keys built_lr_first = _find_all_keys built_seed_first.
Proof.
  apply (_find_all_keys_same built_lr_first built_seed_first);
    [reflexivity | reflexivity | apply built_orders_same].
Defined.

(** ** More properties of [auto_scale_world_size] *)

Lemma solver_chain_lookup cfg name :
  (solver ← py_getattr (VCfg cfg) "SOLVER"; py_getattr solver name)
  = match lookup_path (VCfg cfg) ["SOLVER"; name] with
    | Some v => Ok v
    | None => Raise AttributeError
    end.
Proof.
  simpl. destruct (dict_get (items cfg) "SOLVER") as [[| | | | | |c]|]; try done.
  simpl. by destruct (dict_get (items c) name).
Qed.

Lemma read_solver_defrost name cfg tr v :
  lookup_path (VCfg cfg) ["SOLVER"; name] = Some v ->
  read_solver name {| scaled_cfg := defrost cfg; trace := tr |}
  = (Ok (with_flag false v), {| scaled_cfg := defrost cfg; trace := tr |}).
Proof.
  intros Hv. rewrite read_solver_eq, solver_chain_lookup.
  unfold defrost. by rewrite lookup_path_immutable, Hv.
Qed.




Section AutoScaleMore.
Variable registry : list (string * scaling_method).
Variable tabulate : list diff_row -> string.

(** X10: when scaling is needed and the list of scaling methods is
    empty, the run fails with an [AssertionError] after it has defrosted
    the config: no method is called, nothing is logged, and a config
    that was frozen is left defrosted. *)
Theorem auto_scale_empty_methods cfg new_world_size tr old_world_size :
  reference_world_size cfg = Ok old_world_size ->
  no_scaling_needed old_world_size new_world_size = false ->
  lookup_path (VCfg cfg) ["SOLVER"; "AUTO_SCALING_METHODS"] = Some (VList []) ->
  auto_scale_world_size registry tabulate new_world_size
    {| scaled_cfg := cfg; trace := tr |}
  = (Raise AssertionError, {| scaled_cfg := defrost cfg; trace := tr |}).
Proof.
  intros Hold Hno Hm.
  rewrite (auto_scale_world_size_eq _ _ _ _ _ _ Hold), Hno.
  rewrite M_bind_unfold. unfold run_scaling_methods.
  rewrite M_bind_unfold, (read_solver_defrost _ _ _ _ Hm). reflexivity.
Qed.




End AutoScaleMore.

Section AutoScaleTwice.
Variable registry : list (string * scaling_method).
Variable tabulate : list diff_row -> string.

(** X12: after a run of the scaling branch whose methods completed and
    left the config unfrozen with [SOLVER] an unfrozen node that holds
    in [REFERENCE_WORLD_SIZE] a value equal to itself (every value but a
    NaN is), a second run with the same world size is a no-op: it
    returns the config and changes neither the config nor the trace. *)
Theorem auto_scale_twice cfg new_world_size old_world_size st1 solver1 v1 :
  reference_world_size cfg = Ok old_world_size ->
  no_scaling_needed old_world_size new_world_size = false ->
  run_scaling_methods registry new_world_size
    {| scaled_cfg := defrost cfg; trace := [] |} = (Ok tt, st1) ->
  is_frozen (scaled_cfg st1) = false ->
  dict_get (items (scaled_cfg st1)) "SOLVER" = Some (VCfg solver1) ->
  is_frozen solver1 = false ->
  dict_get (items solver1) "REFERENCE_WORLD_SIZE" = Some v1 ->
  py_eq v1 v1 = true ->
  let st2 :=
    (auto_scale_world_size registry tabulate new_world_size
       {| scaled_cfg := cfg; trace := [] |}).2 in
  auto_scale_world_size registry tabulate new_world_size st2
  = (Ok (VCfg (scaled_cfg st2)), st2).
Proof.
  intros Hold Hno Hrun Hfr Hsolver Hfs Href Heq.
  rewrite (auto_scale_world_size_eq _ _ _ _ _ _ Hold), Hno.
  rewrite M_bind_unfold, Hrun. destruct st1 as [cfg1 tr1].
  simpl in Hfr, Hsolver.
  destruct (finish_scaling_state tabulate new_world_size (is_frozen cfg) cfg
              cfg1 tr1 solver1 v1 Heq Hfr Hsolver Hfs Href)
    as (r & tr' & ->).
  cbv zeta. unfold snd.
  assert (Hset : forall c imm,
    lookup_path
      (VCfg (Node c imm
         (dict_set (items cfg1) "SOLVER"
            (VCfg (Node (class_of solver1) false
               (dict_set (items solver1) "REFERENCE_WORLD_SIZE"
                  (VInt new_world_size)))))))
      ["SOLVER"; "REFERENCE_WORLD_SIZE"] = Some (VInt new_world_size)).
  { intros c imm. simpl. rewrite dict_get_set. simpl. by rewrite dict_get_set. }
  match goal with
  | |- auto_scale_world_size _ _ _ {| scaled_cfg := ?c; trace := _ |} = _ =>
      assert (Href' : reference_world_size c = Ok (VInt new_world_size))
  end.
  { unfold reference_world_size. rewrite solver_chain_lookup.
    destruct (is_frozen cfg).
    - unfold freeze. by rewrite lookup_path_immutable, Hset.
    - by rewrite Hset. }
  rewrite (auto_scale_world_size_eq _ _ _ _ _ _ Href').
  unfold no_scaling_needed. simpl. by rewrite Z.eqb_refl, orb_true_r.
Qed.
End AutoScaleTwice.

Lemma auto_scale_empty_methods_witness :
  auto_scale_world_size sample_registry sample_tabulate 16
    {| scaled_cfg := sample_cfg true []; trace := [] |}
  = (Raise AssertionError,
     {| scaled_cfg := defrost (sample_cfg true []); trace := [] |}).
Proof.
  apply (auto_scale_empty_methods sample_registry sample_tabulate
           (sample_cfg true []) 16 [] (VInt 8)); reflexivity.
Defined.


Lemma auto_scale_twice_witness :
  let st2 :=
    (auto_scale_world_size sample_registry sample_tabulate 16
       {| scaled_cfg := sample_cfg true ["scale_lr"]; trace := [] |}).2 in
  auto_scale_world_size sample_registry sample_tabulate 16 st2
  = (Ok (VCfg (scaled_cfg st2)), st2).
Proof.
  eapply (auto_scale_twice sample_registry sample_tabulate
            (sample_cfg true ["scale_lr"]) 16 (VInt 8));
    [reflexivity | reflexivity | vm_compute; reflexivity
    | reflexivity | reflexivity | reflexivity | reflexivity | reflexivity].
Defined.

(** ** More properties of [merge_from_other_cfg] *)

Section MergeMore.
Variable super_merge : CfgNode -> M CfgNode value.

Lemma merge_from_other_cfg_plain self other log v :
  lookup_path (VCfg other) ARCH_DEF_path = Some v -> v <> VStr "" ->
  merge_from_other_cfg super_merge
    {| self_cfg := self; other_cfg := other; merge_log := log |}
  = run_super_merge super_merge
      {| self_cfg := self; other_cfg := other; merge_log := log |}.
Proof.
  intros Hv Hne. rewrite merge_from_other_cfg_eq.
  pose proof (get_chain_lookup other) as Hchain. rewrite Hv in Hchain.
  rewrite Hchain. destruct (py_eq v (VStr "")) eqn:Heq; [|done].
  by apply py_eq_empty_str in Heq.
Qed.

(** X13: the fix-up fires once.  After a call on an argument that held
    the old default in an unfrozen [MODEL.FBNET_V2] node, a second call
    with the same receiver and argument objects logs no warning and
    rewrites nothing: it is the recursive merge alone. *)
Theorem merge_from_other_cfg_fixup_once self other log :
  (forall fb, lookup_path (VCfg other) ["MODEL"; "FBNET_V2"] = Some (VCfg fb) ->
              is_frozen fb = false) ->
  lookup_path (VCfg other) ARCH_DEF_path = Some (VStr "") ->
  let st1 :=
    (merge_from_other_cfg super_merge
       {| self_cfg := self; other_cfg := other; merge_log := log |}).2 in
  merge_from_other_cfg super_merge st1 = run_super_merge super_merge st1.
Proof.
  intros Hfr Hold.
  destruct (merge_from_other_cfg_rewrites super_merge self other log
              Hfr Hold) as (other' & _ & -> & Hnew).
  unfold run_super_merge at 1. cbn [self_cfg other_cfg merge_log].
  destruct (super_merge other' self) as [r self']. cbv zeta. unfold snd.
  by apply (merge_from_other_cfg_plain _ _ _ (VList [])).
Qed.

(** X14: when [MODEL], or [MODEL.FBNET_V2], of the argument is present
    and is no mapping, the test of the deprecated field fails with an
    [AttributeError]: nothing is logged, the recursive merge does not
    run, and the receiver and the argument are unchanged. *)
Theorem merge_from_other_cfg_not_a_mapping self other log v :
  lookup_path (VCfg other) ["MODEL"] = Some v
  \/ lookup_path (VCfg other) ["MODEL"; "FBNET_V2"] = Some v ->
  is_node v = false ->
  merge_from_other_cfg super_merge
    {| self_cfg := self; other_cfg := other; merge_log := log |}
  = (Raise AttributeError,
     {| self_cfg := self; other_cfg := other; merge_log := log |}).
Proof.
  intros Hv Hnode. rewrite merge_from_other_cfg_eq. simpl in Hv.
  destruct (dict_get (items other) "MODEL") as [model|] eqn:Hmodel;
    [|by destruct Hv].
  cbn [get_or_empty mbind res_bind]. rewrite Hmodel. cbn [mbind res_bind].
  destruct Hv as [[= ->]|Hv].
  - by destruct v.
  - destruct model as [| | | | | |m]; try done. cbn [get_or_empty].
    destruct (dict_get (items m) "FBNET_V2") as [fb|]; [|done].
    injection Hv as ->. cbn [mbind res_bind]. by destruct v.
Qed.
End MergeMore.

Lemma merge_from_other_cfg_fixup_once_witness :
  let st1 :=
    (merge_from_other_cfg overlay_merge
       {| self_cfg := Node D2go false []; other_cfg := old_full_cfg false;
          merge_log := [] |}).2 in
  merge_from_other_cfg overlay_merge st1 = run_super_merge overlay_merge st1.
Proof.
  apply (merge_from_other_cfg_fixup_once overlay_merge (Node D2go false [])
           (old_full_cfg false) []).
  - intros fb [= <-]. reflexivity.
  - reflexivity.
Defined.

Lemma merge_from_other_cfg_not_a_mapping_witness :
  merge_from_other_cfg overlay_merge
    {| self_cfg := Node D2go false [("SEED", VInt 1)];
       other_cfg := Node D2go false [("MODEL", VStr "resnet")];
       merge_log := [] |}
  = (Raise AttributeError,
     {| self_cfg := Node D2go false [("SEED", VInt 1)];
        other_cfg := Node D2go false [("MODEL", VStr "resnet")];
        merge_log := [] |}).
Proof.
  apply (merge_from_other_cfg_not_a_mapping overlay_merge _ _ _ (VStr "resnet"));
    [left; reflexivity | reflexivity].
Defined.

(** ** More properties of the patched loaders *)

Lemma dict_set_keys_present {V} (d : list (string * V)) k v :
  is_Some (dict_get d k) -> (dict_set d k v).*1 = d.*1.
Proof.
  induction d as [|[k0 v0] d IH]; simpl; [by intros [? ?]|].
  destruct (String.eqb k0 k); [done|]. intros H.
  rewrite !fmap_cons. f_equal. by apply IH.
Qed.

Lemma dict_set_same {V} (d : list (string * V)) k v :
  dict_get d k = Some v -> dict_set d k v = d.
Proof.
  induction d as [|[k0 v0] d IH]; simpl; [done|].
  destruct (String.eqb k0 k); [by intros [= ->]|]. intros H. by rewrite IH.
Qed.

Section RerouteMore.
Context {File : Type}.
Variable reroute_config_path : value -> res value.
Variable _safe_load : @loader File.
Variable _unsafe_load : @loader File.

Lemma reroute_base_keys cfg st cfg' st' :
  reroute_base reroute_config_path cfg st = (Ok cfg', st') ->
  match cfg, cfg' with
  | YMapping d, YMapping d' => d'.*1 = d.*1
  | YOther v, YOther v' => is_node v = false -> v' = v
  | _, _ => False
  end.
Proof.
  destruct cfg as [d|v].
  - rewrite reroute_base_mapping.
    destruct (dict_get d BASE_KEY) as [base|] eqn:Hbase; [|by intros [= <- _]].
    cbv zeta. destruct (reroute_config_path base) as [base'|]; [|done].
    intros [= <- _]. apply dict_set_keys_present. by rewrite Hbase.
  - destruct (is_node v) eqn:Hv.
    + destruct v as [| | | | | |[cls imm its]]; try done.
      unfold reroute_base, call_reroute. run_M.
      destruct (dict_get its BASE_KEY) as [base|]; run_M;
        [|by intros [= <- _]].
      destruct (reroute_config_path base); run_M; [|done].
      by intros [= <- _].
    + destruct (reroute_base_other reroute_config_path v st Hv) as [_ [H|H]];
        intros Hrun; rewrite Hrun in H; simpl in H; [|done].
      by injection H as ->.
Qed.

(** X15: what the patched [yaml.safe_load] returns has the keys of what
    the captured loader parsed, in the same order: the patch adds no key
    to a mapping and removes none, and a value that is no mapping comes
    back as it is. *)
Theorem mock_safe_load_keeps_keys f st cfg st' :
  mock_safe_load reroute_config_path _safe_load f st = (Ok cfg, st') ->
  exists parsed st0,
    _safe_load f st = (Ok parsed, st0)
    /\ match parsed, cfg with
       | YMapping d, YMapping d' => d'.*1 = d.*1
       | YOther v, YOther v' => is_node v = false -> v' = v
       | _, _ => False
       end.
Proof.
  unfold mock_safe_load. intros (parsed & st0 & Hload & Hrun)%M_bind_Ok_inv.
  exists parsed, st0. split; [done|]. by eapply reroute_base_keys.
Qed.

Lemma mock_unsafe_load_keeps_keys f st cfg st' :
  mock_unsafe_load reroute_config_path _unsafe_load f st = (Ok cfg, st') ->
  exists parsed st0,
    _unsafe_load f st = (Ok parsed, st0)
    /\ match parsed, cfg with
       | YMapping d, YMapping d' => d'.*1 = d.*1
       | YOther v, YOther v' => is_node v = false -> v' = v
       | _, _ => False
       end.
Proof.
  unfold mock_unsafe_load. intros (parsed & st0 & Hload & Hrun)%M_bind_Ok_inv.
  exists parsed, st0. split; [done|]. by eapply reroute_base_keys.
Qed.

(** X16: when the collaborator leaves the value of [_BASE_] as it is,
    the patched loader returns the mapping the captured loader parsed,
    unchanged. *)
Theorem mock_safe_load_transparent f st d st0 base :
  _safe_load f st = (Ok (YMapping d), st0) ->
  dict_get d BASE_KEY = Some base ->
  reroute_config_path base = Ok base ->
  (mock_safe_load reroute_config_path _safe_load f st).1 = Ok (YMapping d).
Proof.
  intros Hload Hbase Hsame. unfold mock_safe_load.
  rewrite M_bind_unfold, Hload, reroute_base_mapping, Hbase. cbv zeta.
  rewrite Hsame. cbn [fst]. by rewrite dict_set_same.
Qed.
End RerouteMore.

Lemma mock_safe_load_keeps_keys_witness :
  exists parsed st0,
    sample_load (YMapping [("_BASE_", VStr "d2go://a.yaml"); ("SEED", VInt 1)])
      {| target_cfg := Node D2go false []; reroute_calls := [] |}
    = (Ok parsed, st0)
    /\ match parsed, YMapping [("_BASE_", VStr "/pkg/d2go/a.yaml"); ("SEED", VInt 1)] with
       | YMapping d, YMapping d' => d'.*1 = d.*1
       | YOther v, YOther v' => is_node v = false -> v' = v
       | _, _ => False
       end.
Proof.
  apply (mock_safe_load_keeps_keys sample_reroute sample_load
           (YMapping [("_BASE_", VStr "d2go://a.yaml"); ("SEED", VInt 1)])
           {| target_cfg := Node D2go false []; reroute_calls := [] |}
           (YMapping [("_BASE_", VStr "/pkg/d2go/a.yaml"); ("SEED", VInt 1)])
           {| target_cfg := Node D2go false [];
              reroute_calls := [VStr "d2go://a.yaml"] |}).
  reflexivity.
Defined.

Lemma mock_safe_load_transparent_witness :
  (mock_safe_load sample_reroute sample_load
     (YMapping [("_BASE_", VStr "base.yaml"); ("SEED", VInt 1)])
     {| target_cfg := Node D2go false []; reroute_calls := [] |}).1
  = Ok (YMapping [("_BASE_", VStr "base.yaml"); ("SEED", VInt 1)]).
Proof.
  apply (mock_safe_load_transparent sample_reroute sample_load
           (YMapping [("_BASE_", VStr "base.yaml"); ("SEED", VInt 1)])
           {| target_cfg := Node D2go false []; reroute_calls := [] |}
           [("_BASE_", VStr "base.yaml"); ("SEED", VInt 1)]
           {| target_cfg := Node D2go false []; reroute_calls := [] |}
           (VStr "base.yaml")); reflexivity.
Defined.

(** ** The rows of a diff that succeeds *)

Lemma diff_loop_rows cfg original_cfg ks : forall acc table,
  diff_loop cfg original_cfg ks acc = Ok table ->
  exists rows,
    table = acc ++ rows
    /\ sublist rows.*1.*1 ks
    /\ Forall (fun r : diff_row =>
                 _get_value original_cfg r.1.1 = Ok r.1.2
                 /\ _get_value cfg r.1.1 = Ok r.2
                 /\ py_eq r.1.2 r.2 = false) rows.
Proof.
  induction ks as [|k ks IH]; intros acc table; simpl.
  - intros [= <-]. exists []. rewrite app_nil_r. repeat split; constructor.
  - destruct (_get_value original_cfg k) as [vo|] eqn:Ho; [|done].
    destruct (_get_value cfg k) as [vn|] eqn:Hn; [|done]. simpl.
    intros (rows & -> & Hsub & Hall)%IH.
    destruct (py_eq vo vn) eqn:Heq; simpl.
    + exists rows. split; [done|]. split; [by constructor|done].
    + exists ((k, vo, vn) :: rows). split; [by rewrite <- app_assoc|].
      split; [by constructor|]. by constructor.
Qed.

(** X17: whatever the two trees, when the diff succeeds its rows follow
    the order of the flattened keys, with at most one row for each
    occurrence of a key there, and every row holds the two values read
    under its key, which differ: no unchanged key is listed. *)
Theorem diff_table_rows cfg original_cfg table :
  diff_table cfg original_cfg = Ok table ->
  exists all_new_keys,
    _find_all_keys cfg = Ok all_new_keys
    /\ sublist table.*1.*1 all_new_keys
    /\ Forall (fun r : diff_row =>
                 _get_value original_cfg r.1.1 = Ok r.1.2
                 /\ _get_value cfg r.1.1 = Ok r.2
                 /\ py_eq r.1.2 r.2 = false) table.
Proof.
  unfold diff_table.
  destruct (_find_all_keys original_cfg) as [all_old_keys|]; [|done].
  destruct (_find_all_keys cfg) as [all_new_keys|]; [|done].
  cbn [mbind res_bind]. destruct (bool_decide _); [|done].
  intros (rows & -> & Hsub & Hall)%diff_loop_rows.
  exists all_new_keys. done.
Qed.

Lemma diff_table_rows_witness :
  exists all_new_keys,
    _find_all_keys lr_new = Ok all_new_keys
    /\ sublist
         [("SOLVER.BASE_LR", VInt 10, VInt 20);
          ("SOLVER.MAX_ITER", VInt 900, VInt 450)].*1.*1
         all_new_keys
    /\ Forall (fun r : diff_row =>
                 _get_value lr_old r.1.1 = Ok r.1.2
                 /\ _get_value lr_new r.1.1 = Ok r.2
                 /\ py_eq r.1.2 r.2 = false)
         [("SOLVER.BASE_LR", VInt 10, VInt 20);
          ("SOLVER.MAX_ITER", VInt 900, VInt 450)].
Proof. apply (diff_table_rows lr_new lr_old). reflexivity. Defined.
